(** * Goblineer updater: the auction aggregation pipeline

    A shallow embedding of [GoblineerUpdater.parse_auctions]
    (src/src/update.py) and of the market-value loop of [main]
    (src/src/main.py), with the properties of the aggregation that the
    specification states.

    Modelling choices.
    - A listing is a JSON object whose keys may be absent: every field is an
      [option], and reading an absent key raises [KeyError].  Prices,
      quantities and ids are Python ints ([Z]).
    - [buy_price / 10000] is Python's true division of two ints, which
      yields the correctly rounded binary64 quotient or raises
      [OverflowError].  Floats are the Standard Library's [spec_float] at
      precision 53.  The price keys of a returned histogram are finite
      nonzero floats ([parse_auctions_keys_finite]); on such floats the [==]
      of a dict key lookup is equality of representations.
    - [parsed_auctions] is a dict of dicts; its content is modelled as a
      finite map of finite maps.  Where the program iterates over a dict
      (the loop of [main] over [parsed_auctions.items()], [marketvalue_all]
      over [auctions_dict.keys()]) the dict is the map together with its
      keys in insertion order ([pydict]).  The estimators are taken as
      functions of the content of a histogram.
    - The functions that talk to the servers ([get_oauth_token],
      [_get_auction_data], the constructor and [get_auction_data]) run
      against a parameter [network] that answers each request, given the
      requests sent before; they return the requests sent along with their
      outcome.
    - The earlier updater (src/update.py: [update_auctions],
      [get_item_names], [marketvalue_all]) is modelled on the lists that
      the module [downloader] loads; that module and the estimators are
      parameters. *)

From Stdlib Require Import ZArith List Permutation.
From Stdlib Require Import SpecFloat.
From stdpp Require Import gmap strings list fin_maps countable pretty.

Local Open Scope Z_scope.

(** ** Exceptions and results *)

Inductive exn : Type :=
  | TypeError
  | KeyError (key : string)
  | IndexError
  | OverflowError
  | ZeroDivisionError.

Inductive pyresult (A : Type) : Type :=
  | Ok (a : A)
  | Raise (e : exn).
Arguments Ok {A} a.
Arguments Raise {A} e.

#[global] Instance pyresult_bind : MBind pyresult := fun A B k r =>
  match r with
  | Ok a => k a
  | Raise e => Raise e
  end.

Definition raises {A : Type} (r : pyresult A) : Prop :=
  match r with
  | Ok _ => False
  | Raise _ => True
  end.

(** [d[key]] on a JSON object: the value, or [KeyError]. *)
Definition getitem {A : Type} (key : string) (field : option A) : pyresult A :=
  match field with
  | Some v => Ok v
  | None => Raise (KeyError key)
  end.

(** ** Floats *)

Module Float.

Definition prec : Z := 53.
Definition emax : Z := 1024.

Definition float : Type := spec_float.

(** [a / b] on Python ints: the quotient rounded to nearest even; a zero
    divisor raises [ZeroDivisionError], a quotient beyond the largest
    float raises [OverflowError]. *)
Definition int_truediv (a b : Z) : pyresult float :=
  let negate := xorb (a <? 0) (b <? 0) in
  if b =? 0 then Raise ZeroDivisionError
  else if a =? 0 then Ok (S754_zero negate)
  else
    let '(mz, ez, lz) := SFdiv_core_binary prec emax (Z.abs a) 0 (Z.abs b) 0 in
    match binary_round_aux prec emax negate mz ez lz with
    | S754_infinity _ => Raise OverflowError
    | S754_nan => Raise OverflowError
    | f => Ok f
    end.

(** The literals [10.0] and [0.8]: [0x4024000000000000] and
    [0x3FE999999999999A]. *)
Definition f10_0 : float := S754_finite false 5629499534213120 (-49).
Definition f0_8 : float := S754_finite false 7205759403792794 (-53).

#[global] Instance float_eq_dec : EqDecision float.
Proof. unfold float. solve_decision. Defined.

Definition float_encode (f : float) : bool * (bool + (unit + positive * Z)) :=
  match f with
  | S754_zero s => (s, inl true)
  | S754_infinity s => (s, inl false)
  | S754_nan => (false, inr (inl tt))
  | S754_finite s m e => (s, inr (inr (m, e)))
  end.

Definition float_decode (c : bool * (bool + (unit + positive * Z))) : float :=
  match c with
  | (s, inl true) => S754_zero s
  | (s, inl false) => S754_infinity s
  | (_, inr (inl _)) => S754_nan
  | (s, inr (inr (m, e))) => S754_finite s m e
  end.

#[global] Instance float_countable : Countable float.
Proof.
  apply (inj_countable' float_encode float_decode).
  intros []; reflexivity.
Defined.

End Float.
Import Float.

(** ** Listings *)

(** [auc['item']]: an object with an [id] and an optional [bonus_lists]. *)
Record item_obj : Type := {
  item_id : option Z;
  item_bonus_lists : option (list Z)
}.

(** One entry of the [auctions] array. *)
Record auction : Type := {
  auc_buyout : option Z;
  auc_unit_price : option Z;
  auc_item : option item_obj;
  auc_quantity : option Z
}.

(** The argument of [parse_auctions]: a list of listings, or anything else. *)
Inductive pyarg : Type :=
  | PyList (auctions : list auction)
  | PyNotList.

(** A variant key is the tuple [(item id, bonus id, ...)]. *)
Abbreviation dict_key_t := (list Z).
Abbreviation histogram := (gmap float Z).
Abbreviation parsed_t := (gmap (list Z) (gmap float Z)).

(** ** parse_auctions *)

Definition currency_scale : Z := 10000.

(** ['k' in auc and auc['k'] != 0], with the value read when it holds. *)
Definition present_nonzero (field : option Z) : option Z :=
  match field with
  | Some v => if v =? 0 then None else Some v
  | None => None
  end.

(** Lines 172-178: the price that is read, [None] for [continue]. *)
Definition buy_price (auc : auction) : option Z :=
  match present_nonzero (auc_buyout auc) with
  | Some b => Some b
  | None =>
      match present_nonzero (auc_unit_price auc) with
      | Some u => Some u
      | None => None
      end
  end.

(** Lines 172-181: [None] when the listing is skipped, else the outcome of
    [buy_price / 10000]. *)
Definition unit_price (auc : auction) : option (pyresult float) :=
  match buy_price auc with
  | Some bp => Some (int_truediv bp currency_scale)
  | None => None
  end.

(** Lines 184-191: the item id followed by the bonus ids, appended one by
    one. *)
Definition dict_key (auc : auction) : pyresult dict_key_t :=
  it ← getitem "item" (auc_item auc);
  id ← getitem "id" (item_id it);
  let dict_key_list := [id] in
  match item_bonus_lists it with
  | Some bonus_lists =>
      Ok (fold_left (fun acc bonus_id => acc ++ [bonus_id]) bonus_lists dict_key_list)
  | None => Ok dict_key_list
  end.

(** Lines 195-198 on the histogram [parsed_auctions[dict_key]]. *)
Definition add_quantity (h : histogram) (up : float) (q : Z) : histogram :=
  match h !! up with
  | Some old => <[up := old + q]> h
  | None => <[up := q]> h
  end.

(** The body of the loop over [auctions]. *)
Definition loop_body (parsed_auctions : parsed_t) (auc : auction) : pyresult parsed_t :=
  match unit_price auc with
  | None => Ok parsed_auctions
  | Some division =>
      up ← division;
      key ← dict_key auc;
      let h := default ∅ (parsed_auctions !! key) in
      q ← getitem "quantity" (auc_quantity auc);
      Ok (<[key := add_quantity h up q]> parsed_auctions)
  end.

Fixpoint loop (parsed_auctions : parsed_t) (auctions : list auction) : pyresult parsed_t :=
  match auctions with
  | [] => Ok parsed_auctions
  | auc :: rest =>
      parsed_auctions' ← loop_body parsed_auctions auc;
      loop parsed_auctions' rest
  end.

Definition parse_auctions (auctions : pyarg) : pyresult parsed_t :=
  match auctions with
  | PyNotList => Raise TypeError
  | PyList l => loop ∅ l
  end.

(** ** Vocabulary of the specification *)

(** The listing carries a nonzero buyout or a nonzero per-unit price. *)
Definition usable_price (auc : auction) : Prop :=
  (exists b, auc_buyout auc = Some b /\ b <> 0) \/
  (exists u, auc_unit_price auc = Some u /\ u <> 0).

(** Neither price is present and nonzero. *)
Definition unpriced (auc : auction) : Prop :=
  (auc_buyout auc = None \/ auc_buyout auc = Some 0) /\
  (auc_unit_price auc = None \/ auc_unit_price auc = Some 0).

(** The listing has no [item] object, or one without [id]. *)
Definition missing_item_id (auc : auction) : Prop :=
  match auc_item auc with
  | None => True
  | Some it => item_id it = None
  end.

(** What the loop reads of a priced listing is there: an item with an id,
    a quantity, and a price that a float can hold. *)
Definition well_formed (auc : auction) : Prop :=
  (exists it id, auc_item auc = Some it /\ item_id it = Some id) /\
  is_Some (auc_quantity auc) /\
  (forall bp, buy_price auc = Some bp -> Z.abs bp < 2 ^ 1000).

(** The bonus ids of a listing, the empty list when there are none. *)
Definition bonus_ids (auc : auction) : list Z :=
  match auc_item auc with
  | Some it => default [] (item_bonus_lists it)
  | None => []
  end.

(** What a listing adds to the result: variant key, price, quantity. *)
Definition entry : Type := dict_key_t * float * Z.

Definition add_entry (m : parsed_t) (e : entry) : parsed_t :=
  let '(k, p, q) := e in <[k := add_quantity (default ∅ (m !! k)) p q]> m.
Arguments add_entry : simpl never.

(** The outcome of one iteration, without the accumulator: [Ok None] for a
    skipped listing, the exceptions in the order the body raises them. *)
Definition entry_of (auc : auction) : pyresult (option entry) :=
  match unit_price auc with
  | None => Ok None
  | Some division =>
      up ← division;
      key ← dict_key auc;
      q ← getitem "quantity" (auc_quantity auc);
      Ok (Some (key, up, q))
  end.

(** The entries of a list of listings, in order; the first exception wins. *)
Fixpoint entries_of (l : list auction) : pyresult (list entry) :=
  match l with
  | [] => Ok []
  | auc :: rest =>
      o ← entry_of auc;
      es ← entries_of rest;
      Ok (option_list o ++ es)
  end.

(** The sum of the quantities of a list of entries. *)
Definition entries_total (es : list entry) : Z :=
  foldr (fun e acc => e.2 + acc) 0 es.

(** The quantity [m[k][p]], if that bucket exists. *)
Definition bucket (m : parsed_t) (k : dict_key_t) (p : float) : option Z :=
  h ← m !! k; h !! p.

(** The sum of the quantities of a histogram. *)
Definition hist_total (h : histogram) : Z :=
  map_fold (fun _ q acc => q + acc) 0 h.

(** The sum of the quantities of a list of listings. *)
Definition quantity_sum (l : list auction) : Z :=
  foldr (fun auc acc => default 0 (auc_quantity auc) + acc) 0 l.

#[global] Instance exn_eq_dec : EqDecision exn.
Proof. solve_decision. Defined.

#[global] Instance pyresult_eq_dec {A : Type} `{EqDecision A} : EqDecision (pyresult A).
Proof. solve_decision. Defined.

(** The listing is not skipped and belongs to variant [k]. *)
Definition in_variant (k : dict_key_t) (auc : auction) : Prop :=
  is_Some (buy_price auc) /\ dict_key auc = Ok k.

(** The listing is not skipped, belongs to variant [k] and has price [p]. *)
Definition in_bucket (k : dict_key_t) (p : float) (auc : auction) : Prop :=
  unit_price auc = Some (Ok p) /\ dict_key auc = Ok k.

#[global] Instance in_variant_dec k auc : Decision (in_variant k auc).
Proof. unfold in_variant. apply _. Defined.

#[global] Instance in_bucket_dec k p auc : Decision (in_bucket k p auc).
Proof. unfold in_bucket. apply _. Defined.

(** No variant of the result has an empty histogram. *)
Definition no_empty_histogram (m : parsed_t) : Prop :=
  forall k h, m !! k = Some h -> h <> ∅.

(** ** Dicts with their insertion order *)

(** A Python dict iterates over its keys in the order of their insertion.
    Where that order is observed, a dict is its mapping together with the
    list of its keys in that order. *)
Record pydict (K : Type) `{Countable K} (V : Type) : Type := {
  pd_keys : list K;
  pd_map : gmap K V
}.
Arguments pd_keys {K _ _ V} _.
Arguments pd_map {K _ _ V} _.

(** [d.items()] *)
Definition dict_items {K : Type} `{Countable K} {V : Type} (d : pydict K V)
    : list (K * V) :=
  omap (fun k => pair k <$> pd_map d !! k) (pd_keys d).

(** The body of the loop over [auctions], on the dict with its order:
    [parsed_auctions[dict_key]] puts a key that is new at the end. *)
Definition loop_body_ordered (parsed_auctions : pydict dict_key_t histogram)
    (auc : auction) : pyresult (pydict dict_key_t histogram) :=
  match unit_price auc with
  | None => Ok parsed_auctions
  | Some division =>
      up ← division;
      key ← dict_key auc;
      let keys :=
        if bool_decide (is_Some (pd_map parsed_auctions !! key))
        then pd_keys parsed_auctions
        else pd_keys parsed_auctions ++ [key] in
      let h := default ∅ (pd_map parsed_auctions !! key) in
      q ← getitem "quantity" (auc_quantity auc);
      Ok {| pd_keys := keys;
            pd_map := <[key := add_quantity h up q]> (pd_map parsed_auctions) |}
  end.

Fixpoint loop_ordered (parsed_auctions : pydict dict_key_t histogram)
    (auctions : list auction) : pyresult (pydict dict_key_t histogram) :=
  match auctions with
  | [] => Ok parsed_auctions
  | auc :: rest =>
      parsed_auctions' ← loop_body_ordered parsed_auctions auc;
      loop_ordered parsed_auctions' rest
  end.

(** [parse_auctions], the returned dict with its order. *)
Definition parse_auctions_ordered (auctions : pyarg)
    : pyresult (pydict dict_key_t histogram) :=
  match auctions with
  | PyNotList => Raise TypeError
  | PyList l => loop_ordered {| pd_keys := []; pd_map := ∅ |} l
  end.

(** The variant key of a listing that is counted. *)
Definition variant_of (auc : auction) : option dict_key_t :=
  match buy_price auc, dict_key auc with
  | Some _, Ok key => Some key
  | _, _ => None
  end.

(** A list without its repetitions, every element at its first place. *)
Fixpoint first_occurrences {A : Type} `{EqDecision A} (l : list A) : list A :=
  match l with
  | [] => []
  | x :: rest => x :: filter (fun y => y <> x) (first_occurrences rest)
  end.

(** The keys of an ordered dict are those of its mapping, each once. *)
Definition pydict_wf {K : Type} `{Countable K} {V : Type} (d : pydict K V) : Prop :=
  NoDup (pd_keys d) /\ forall k, k ∈ pd_keys d <-> is_Some (pd_map d !! k).

(** ** The market-value loop of [main] *)

(** One element of [marketvalues]. *)
Record mv_entry : Type := {
  mv_item : Z;
  mv_bonusIds : list Z;
  mv_marketvalue : string;
  mv_quantity : string;
  mv_MIN : string
}.

#[global] Instance mv_entry_eq_dec : EqDecision mv_entry.
Proof. solve_decision. Defined.

Section Main.

(** The estimator [marketvalue] lives in a module that is not part of the
    sources at hand: it is a parameter here, returning a dict from field
    names to values of some type [V] that [str] prints. *)
Context {V : Type}.
Variable str : V -> string.
Variable marketvalue : histogram -> pyresult (gmap string V).

(** Lines 41-48.  The first component logs the histograms the estimator
    has been called on, whether or not the iteration then raises. *)
Definition mv_body (calls : list histogram) (marketvalues : list mv_entry)
    (item_ids : dict_key_t) (item_data : histogram)
    : list histogram * pyresult (list mv_entry) :=
  (calls ++ [item_data],
   marketvalue_data ← marketvalue item_data;
   item ← match item_ids with
          | [] => Raise IndexError
          | i :: _ => Ok i
          end;
   let bonusIds := tail item_ids in
   mv ← getitem "marketvalue" (marketvalue_data !! "marketvalue");
   qt ← getitem "quantity" (marketvalue_data !! "quantity");
   mn ← getitem "MIN" (marketvalue_data !! "MIN");
   Ok (marketvalues ++
       [ {| mv_item := item; mv_bonusIds := bonusIds;
            mv_marketvalue := str mv; mv_quantity := str qt;
            mv_MIN := str mn |} ])).

(** Lines 39-48: the loop over [parsed_auctions.items()]. *)
Fixpoint mv_loop (calls : list histogram) (marketvalues : list mv_entry)
    (items : list (dict_key_t * histogram))
    : list histogram * pyresult (list mv_entry) :=
  match items with
  | [] => (calls, Ok marketvalues)
  | (item_ids, item_data) :: rest =>
      match mv_body calls marketvalues item_ids item_data with
      | (calls', Ok marketvalues') => mv_loop calls' marketvalues' rest
      | (calls', Raise e) => (calls', Raise e)
      end
  end.

(** Lines 35-48 of [main]: parse, then estimate every variant. *)
Definition main_marketvalues (auction_data : pyarg)
    : list histogram * pyresult (list mv_entry) :=
  match parse_auctions_ordered auction_data with
  | Raise e => ([], Raise e)
  | Ok parsed_auctions => mv_loop [] [] (dict_items parsed_auctions)
  end.

End Main.

(** ** Example listings *)

Definition listing (id : Z) (bonus : option (list Z)) (bo up : option Z) (q : Z) : auction :=
  {| auc_buyout := bo; auc_unit_price := up;
     auc_item := Some {| item_id := Some id; item_bonus_lists := bonus |};
     auc_quantity := Some q |}.

(** The three listings of the end-to-end scenario. *)
Definition scenario : list auction :=
  [ listing 100 (Some []) (Some 100000) None 1;
    listing 100 (Some []) None (Some 8000) 5;
    listing 100 (Some []) (Some 0) (Some 0) 3 ].

(** Two listings of item 7 whose bonus ids differ by order only. *)
Definition bonus_12 : auction := listing 7 (Some [1; 2]) (Some 30000) None 1.
Definition bonus_21 : auction := listing 7 (Some [2; 1]) (Some 30000) None 4.

(** A listing with a zero buyout, no item id and no quantity. *)
Definition unpriced_bare : auction :=
  {| auc_buyout := Some 0; auc_unit_price := None;
     auc_item := Some {| item_id := None; item_bonus_lists := None |};
     auc_quantity := None |}.

(** A priced listing without item id. *)
Definition priced_no_id : auction :=
  {| auc_buyout := Some 50000; auc_unit_price := None;
     auc_item := Some {| item_id := None; item_bonus_lists := None |};
     auc_quantity := Some 2 |}.

(** ** JSON values and the HTTP boundary *)

(** The Python values that [os.getenv] and [Response.json] give: [None],
    booleans, ints, floats, strings, lists and dicts with string keys (a
    dict by its items, one per key). *)
#[warnings="-register-all"]
Inductive json : Type :=
  | JNull
  | JBool (b : bool)
  | JInt (n : Z)
  | JFloat (f : float)
  | JStr (s : string)
  | JList (l : list json)
  | JObj (items : list (string * json)).

Fixpoint assoc (key : string) (items : list (string * json)) : option json :=
  match items with
  | [] => None
  | (k, v) :: rest => if decide (k = key) then Some v else assoc key rest
  end.

(** [v[key]] with a string key: the value or [KeyError] on a dict,
    [TypeError] on anything else. *)
Definition subscript (v : json) (key : string) : pyresult json :=
  match v with
  | JObj items => getitem key (assoc key items)
  | _ => Raise TypeError
  end.

(** [isinstance(v, str)] *)
Definition is_str (v : json) : bool :=
  match v with
  | JStr _ => true
  | _ => false
  end.

(** What the network functions raise: the exceptions of [parse_auctions],
    [ValueError] and [ConnectionError] with the HTTP status or the transport
    error they report, the decoding error of [Response.json], and any other
    exception of the [requests] library. *)
Inductive conn_cause : Type :=
  | Transport (err : string)
  | HttpStatus (status_code : Z).

Inductive net_exn : Type :=
  | Builtin (e : exn)
  | ValueError (status_code : Z)
  | ConnectionError (cause : conn_cause)
  | JSONDecodeError
  | RequestException.

Inductive netresult (A : Type) : Type :=
  | Return (a : A)
  | Throw (e : net_exn).
Arguments Return {A} a.
Arguments Throw {A} e.

Inductive http_method : Type := GET | POST.

(** One call of [requests.get] or [requests.post], by its arguments. *)
Record request : Type := {
  rq_method : http_method;
  rq_url : json;
  rq_params : list (string * string);
  rq_headers : list (string * string);
  rq_data : list (string * string);
  rq_auth : option (string * string)
}.

(** A response, by what the code reads of it: [status_code], and the value
    of [json()], [None] when the body is not JSON. *)
Record response : Type := {
  status_code : Z;
  body : option json
}.

(** How a request ends: [requests.exceptions.ConnectionError] with its
    text, another exception of the library, or a response. *)
Inductive reply : Type :=
  | ConnectionFailed (err : string)
  | RequestFailed
  | Responded (resp : response).

(** A computation that sends requests: from the requests sent so far to
    the requests sent afterwards and the outcome. *)
Definition net_m (A : Type) : Type := list request -> list request * netresult A.

#[global] Instance net_m_ret : MRet net_m := fun A a tr => (tr, Return a).

#[global] Instance net_m_bind : MBind net_m := fun A B k c tr =>
  match c tr with
  | (tr', Return a) => k a tr'
  | (tr', Throw e) => (tr', Throw e)
  end.

Definition throw {A : Type} (e : net_exn) : net_m A := fun tr => (tr, Throw e).

(** An exception of the pure part passes through unchanged. *)
Definition lift {A : Type} (r : pyresult A) : net_m A :=
  match r with
  | Ok a => mret a
  | Raise e => throw (Builtin e)
  end.

(** [resp.json()] *)
Definition json_of (resp : response) : net_m json :=
  match body resp with
  | Some j => mret j
  | None => throw JSONDecodeError
  end.

(** The state of a [GoblineerUpdater]; [self_data] is [JNull] for [None]. *)
Record GoblineerUpdater : Type := {
  self_region : option string;
  self_realm : option string;
  self_locale : option string;
  self_auth_client : option string;
  self_auth_secret : option string;
  self_api_base_url : string;
  self_oauth_base_url : string;
  self_token : json;
  self_data : json
}.

(** A value of [os.getenv] as a Python value, and inside an f-string. *)
Definition env_value (v : option string) : json :=
  match v with
  | Some s => JStr s
  | None => JNull
  end.

Definition env_format (v : option string) : string :=
  match v with
  | Some s => s
  | None => "None"
  end.

(** The request of line 56. *)
Definition token_request (id secret : string) (url : json) : request :=
  {| rq_method := POST; rq_url := url; rq_params := []; rq_headers := [];
     rq_data := [("grant_type", "client_credentials")];
     rq_auth := Some (id, secret) |}.

(** The requests of lines 118, 122 and 133: a GET with the headers and
    parameters of lines 107-113. *)
Definition api_get (token locale : string) (url : json) : request :=
  {| rq_method := GET; rq_url := url;
     rq_params := [("locale", locale)];
     rq_headers := [("Battlenet-Namespace", "dynamic-eu");
                    ("Authorization", "Bearer " +:+ token)];
     rq_data := []; rq_auth := None |}.

Section Network.

(** The servers: the reply to a request, given the requests sent before. *)
Variable network : list request -> request -> reply.

(** A call of [requests.get] or [requests.post] inside
    [try ... except requests.exceptions.ConnectionError]. *)
Definition send (rq : request) : net_m response := fun tr =>
  match network tr rq with
  | ConnectionFailed err => (tr ++ [rq], Throw (ConnectionError (Transport err)))
  | RequestFailed => (tr ++ [rq], Throw RequestException)
  | Responded resp => (tr ++ [rq], Return resp)
  end.

(** Lines 63-71 and 141-145: the check of the status code. *)
Definition check_status (resp : response) : net_m unit :=
  if negb (status_code resp =? 200) then
    if status_code resp =? 401 then throw (ValueError (status_code resp))
    else throw (ConnectionError (HttpStatus (status_code resp)))
  else mret tt.

(** Lines 22-74. *)
Definition get_oauth_token (client_id client_secret url : json) : net_m json :=
  match client_id, client_secret, url with
  | JStr id, JStr secret, JStr _ =>
      resp ← send (token_request id secret url);
      _ ← check_status resp;
      j ← json_of resp;
      lift (subscript j "access_token")
  | _, _, _ => throw (Builtin TypeError)
  end.

(** Lines 80-148, for an updater whose [api_base_url] is given. *)
Definition _get_auction_data (api_base_url : string) (token realm locale : json)
    : net_m json :=
  match token, realm, locale with
  | JStr tok, JStr rlm, JStr loc =>
      let get url := send (api_get tok loc url) in
      let realm_api_url := api_base_url +:+ "/data/wow/realm/" +:+ rlm in
      realm_resp ← get (JStr realm_api_url);
      realm_json ← json_of realm_resp;
      connected_realm ← lift (subscript realm_json "connected_realm");
      conn_realm_url ← lift (subscript connected_realm "href");
      conn_realm_resp ← get conn_realm_url;
      conn_realm_json ← json_of conn_realm_resp;
      auctions ← lift (subscript conn_realm_json "auctions");
      auction_api_url ← lift (subscript auctions "href");
      auction_resp ← get auction_api_url;
      auction_json ← json_of auction_resp;
      _ ← check_status auction_resp;
      lift (subscript auction_json "auctions")
  | _, _, _ => throw (Builtin TypeError)
  end.

(** Lines 10-20: the constructor, on the values of the environment. *)
Definition GoblineerUpdater_init
    (oauth_client oauth_secret region realm locale : option string)
    : net_m GoblineerUpdater :=
  let api_base_url := "https://" +:+ env_format region +:+ ".api.blizzard.com" in
  let oauth_base_url := "https://" +:+ env_format region +:+ ".battle.net/oauth/token" in
  token ← get_oauth_token (env_value oauth_client) (env_value oauth_secret)
            (JStr oauth_base_url);
  mret {| self_region := region; self_realm := realm; self_locale := locale;
          self_auth_client := oauth_client; self_auth_secret := oauth_secret;
          self_api_base_url := api_base_url; self_oauth_base_url := oauth_base_url;
          self_token := token; self_data := JNull |}.

(** Lines 76-78: the updater after the call, and the value returned. *)
Definition get_auction_data (self : GoblineerUpdater) : net_m (GoblineerUpdater * json) :=
  data ← _get_auction_data (self_api_base_url self) (self_token self)
           (env_value (self_realm self)) (env_value (self_locale self));
  mret ({| self_region := self_region self; self_realm := self_realm self;
           self_locale := self_locale self;
           self_auth_client := self_auth_client self;
           self_auth_secret := self_auth_secret self;
           self_api_base_url := self_api_base_url self;
           self_oauth_base_url := self_oauth_base_url self;
           self_token := self_token self; self_data := data |}, data).

(** Lines 15-30 of [main]: the updater is built from the environment, then
    the auction data is fetched. *)
Definition main_fetch (oauth_client oauth_secret region realm locale : option string)
    : net_m (GoblineerUpdater * json) :=
  updater ← GoblineerUpdater_init oauth_client oauth_secret region realm locale;
  get_auction_data updater.

End Network.

(** Example servers.  [scripted last] answers the first request with a
    token, the second and third with the links to follow, and every later
    one with [last]; [refusing] answers everything with status 401 and an
    error document. *)
Definition scripted (last : reply) : list request -> request -> reply :=
  fun tr _ =>
    match length tr with
    | 0%nat => Responded {| status_code := 200;
                            body := Some (JObj [("access_token", JStr "t0k")]) |}
    | 1%nat => Responded {| status_code := 200;
                            body := Some (JObj [("connected_realm",
                                                 JObj [("href", JStr "https://c")])]) |}
    | 2%nat => Responded {| status_code := 200;
                            body := Some (JObj [("auctions",
                                                 JObj [("href", JStr "https://a")])]) |}
    | _ => last
    end.

Definition refusing : list request -> request -> reply :=
  fun _ _ => Responded {| status_code := 401;
                          body := Some (JObj [("code", JInt 401)]) |}.

(** The updater that [main] holds after a fetch from [scripted], with no
    region in the environment. *)
Definition fetched_updater : GoblineerUpdater :=
  {| self_region := None; self_realm := Some "ragnaros";
     self_locale := Some "en_GB"; self_auth_client := Some "id";
     self_auth_secret := Some "secret";
     self_api_base_url := "https://None.api.blizzard.com";
     self_oauth_base_url := "https://None.battle.net/oauth/token";
     self_token := JStr "t0k"; self_data := JList [] |}.

(** ** The earlier updater (src/update.py) *)

(** [x / n] for a float [x] and an int [n]: [n] is converted to a float,
    a zero divisor raises, the quotient is the IEEE one. *)
Definition float_of_int (n : Z) : pyresult float :=
  match binary_normalize Float.prec Float.emax n 0 false with
  | S754_infinity _ => Raise OverflowError
  | S754_nan => Raise OverflowError
  | f => Ok f
  end.

Definition float_truediv (x : float) (n : Z) : pyresult float :=
  d ← float_of_int n;
  match d with
  | S754_zero _ => Raise ZeroDivisionError
  | _ => Ok (SFdiv Float.prec Float.emax x d)
  end.
Arguments float_of_int : simpl never.
Arguments float_truediv : simpl never.

(** An item id as it is used for a dict key: an int or a string. *)
Inductive item_key : Type :=
  | KInt (n : Z)
  | KStr (s : string).

#[global] Instance item_key_eq_dec : EqDecision item_key.
Proof. solve_decision. Defined.

#[global] Instance item_key_countable : Countable item_key.
Proof.
  apply (inj_countable' (fun k => match k with KInt n => inl n | KStr s => inr s end)
                        (fun c => match c with inl n => KInt n | inr s => KStr s end)).
  intros []; reflexivity.
Defined.

(** [str(item)] *)
Definition str_key (k : item_key) : string :=
  match k with
  | KInt n => pretty n
  | KStr s => s
  end.

(** One entry of the list that [load_auctions] gives. *)
Record old_auction : Type := {
  oa_buyout : option Z;
  oa_quantity : option Z;
  oa_item : option item_key
}.

Abbreviation prices_t := (gmap item_key (list float)).

(** Lines 15-16: [count] appends of [unit_price] to
    [auctions_dict[auc["item"]]]. *)
Fixpoint append_units (count : nat) (auc : old_auction) (unit_price : float)
    (auctions_dict : prices_t) : pyresult prices_t :=
  match count with
  | O => Ok auctions_dict
  | S count' =>
      item ← getitem "item" (oa_item auc);
      append_units count' auc unit_price
        (<[item := default [] (auctions_dict !! item) ++ [unit_price]]> auctions_dict)
  end.

(** Lines 13-16: the body of the loop of [update_auctions]. *)
Definition update_body (auctions_dict : prices_t) (auc : old_auction) : pyresult prices_t :=
  buyout ← getitem "buyout" (oa_buyout auc);
  if negb (buyout =? 0) then
    quantity ← getitem "quantity" (oa_quantity auc);
    per_unit ← int_truediv buyout quantity;
    unit_price ← float_truediv per_unit 10000;
    append_units (Z.to_nat quantity) auc unit_price auctions_dict
  else Ok auctions_dict.

(** Lines 11-18 of [update_auctions], on the list that
    [downloader.load_auctions] has loaded. *)
Fixpoint update_loop (auctions_dict : prices_t) (auctions : list old_auction)
    : pyresult prices_t :=
  match auctions with
  | [] => Ok auctions_dict
  | auc :: rest =>
      auctions_dict' ← update_body auctions_dict auc;
      update_loop auctions_dict' rest
  end.

Definition update_auctions (auctions : list old_auction) : pyresult prices_t :=
  update_loop ∅ auctions.

(** One element of the list kept in [items.json]. *)
Record saved_item : Type := {
  si_item : option item_key;
  si_name : option string
}.

Abbreviation names_t := (gmap item_key string).

(** Lines 46-47: the saved names, later elements overwriting earlier ones. *)
Fixpoint load_names (item_names_dict : names_t) (saved_items : list saved_item)
    : pyresult names_t :=
  match saved_items with
  | [] => Ok item_names_dict
  | element :: rest =>
      name ← getitem "name" (si_name element);
      item ← getitem "item" (si_item element);
      load_names (<[item := name]> item_names_dict) rest
  end.

Section Legacy.

(** The module [downloader] and the estimator are not among the sources:
    the saved list that [load_items] returns, the lookup of a name and the
    estimator are parameters. *)
Context {MV : Type}.
Variable saved_items : list saved_item.
Variable get_item_name : item_key -> string -> string -> string -> pyresult string.
Variable marketvalue : item_key -> list float -> string -> pyresult MV.

(** Lines 49-58: the names that are missing are looked up, stored under
    the item itself, and appended to the list. *)
Fixpoint names_loop (items : list item_key) (region api_key locale : string)
    (item_names_dict : names_t) (item_names_list : list saved_item)
    : pyresult (names_t * list saved_item) :=
  match items with
  | [] => Ok (item_names_dict, item_names_list)
  | item :: rest =>
      if negb (bool_decide (is_Some (item_names_dict !! KStr (str_key item)))) then
        name ← get_item_name item region api_key locale;
        names_loop rest region api_key locale
          (<[item := name]> item_names_dict)
          (item_names_list ++ [ {| si_item := Some item; si_name := Some name |} ])
      else names_loop rest region api_key locale item_names_dict item_names_list
  end.

(** Lines 37-63: the list given to [write_items] and the dict returned. *)
Definition get_item_names (items : list item_key) (region api_key locale : string)
    : pyresult (list saved_item * names_t) :=
  item_names_dict ← load_names ∅ saved_items;
  r ← names_loop items region api_key locale item_names_dict saved_items;
  Ok (r.2, r.1).

(** Lines 30-33: one estimate per item. *)
Fixpoint marketvalue_loop (items : list item_key) (auctions_dict : prices_t)
    (item_names : names_t) (marketvalues : list MV) : pyresult (list MV) :=
  match items with
  | [] => Ok marketvalues
  | item :: rest =>
      let prices := default [] (auctions_dict !! item) in
      name ← getitem (str_key item) (item_names !! KStr (str_key item));
      mv ← marketvalue item prices name;
      marketvalue_loop rest auctions_dict item_names (marketvalues ++ [mv])
  end.

(** Lines 21-35: the first component is the list written to [items.json],
    if [write_items] has been reached. *)
Definition marketvalue_all (auctions_dict : pydict item_key (list float))
    (region api_key locale : string)
    : option (list saved_item) * pyresult (list MV) :=
  let items := pd_keys auctions_dict in
  match get_item_names items region api_key locale with
  | Raise e => (None, Raise e)
  | Ok (written, item_names) =>
      (Some written,
       marketvalue_loop items (pd_map auctions_dict) item_names [])
  end.

End Legacy.

(** ** Vocabulary for the earlier updater *)

(** Line 14: the unit price of a listing. *)
Definition old_unit_price (auc : old_auction) : pyresult float :=
  buyout ← getitem "buyout" (oa_buyout auc);
  quantity ← getitem "quantity" (oa_quantity auc);
  per_unit ← int_truediv buyout quantity;
  float_truediv per_unit 10000.

(** The listing has a nonzero buyout and is a listing of [item]. *)
Definition counted_for (item : item_key) (auc : old_auction) : bool :=
  match oa_buyout auc, oa_item auc with
  | Some b, Some i => negb (b =? 0) && bool_decide (i = item)
  | _, _ => false
  end.

(** The number of units the listing offers of [item]. *)
Definition units_count (item : item_key) (auc : old_auction) : nat :=
  if counted_for item auc then Z.to_nat (default 0 (oa_quantity auc)) else 0%nat.

(** What a listing adds: item, unit price and a positive number of
    copies; [Ok None] when it adds nothing. *)
Definition old_entry_of (auc : old_auction) : pyresult (option (item_key * float * nat)) :=
  buyout ← getitem "buyout" (oa_buyout auc);
  if negb (buyout =? 0) then
    quantity ← getitem "quantity" (oa_quantity auc);
    per_unit ← int_truediv buyout quantity;
    unit_price ← float_truediv per_unit 10000;
    match Z.to_nat quantity with
    | O => Ok None
    | S n =>
        item ← getitem "item" (oa_item auc);
        Ok (Some (item, unit_price, S n))
    end
  else Ok None.

Definition add_units (d : prices_t) (e : item_key * float * nat) : prices_t :=
  let '(item, unit_price, n) := e in
  <[item := default [] (d !! item) ++ replicate n unit_price]> d.
Arguments add_units : simpl never.

(** The prices a listing adds to the list of [item]. *)
Definition units_of (item : item_key) (auc : old_auction) : list float :=
  match old_entry_of auc with
  | Ok (Some (i, unit_price, n)) =>
      if decide (i = item) then replicate n unit_price else []
  | _ => []
  end.

(** The float [10000.0]. *)
Definition f10000 : float := S754_finite false 5497558138880000 (-39).

(** Example listings of the earlier format. *)
Definition old_listings : list old_auction :=
  [ {| oa_buyout := Some 300000; oa_quantity := Some 3; oa_item := Some (KInt 7) |};
    {| oa_buyout := Some 0; oa_quantity := None; oa_item := None |};
    {| oa_buyout := Some 50000; oa_quantity := Some 1; oa_item := Some (KInt 7) |} ].

(** No key of the dict of names is a string. *)
Definition no_str_keys (d : names_t) : Prop := forall s, d !! KStr s = None.

(** A saved list as a run over int items leaves it, and a lookup of names
    that always answers. *)
Definition saved_ints : list saved_item :=
  [ {| si_item := Some (KInt 7); si_name := Some "Linen Cloth" |} ].

Definition name_server : item_key -> string -> string -> string -> pyresult string :=
  fun item _ _ _ => Ok ("item " +:+ str_key item).

(** ** Merging two results *)

(** Bucket by bucket, the quantities of two histograms added. *)
Definition merge_histogram (h1 h2 : histogram) : histogram :=
  union_with (fun q1 q2 => Some (q1 + q2)) h1 h2.

(** Variant by variant, the histograms of two results merged. *)
Definition merge_parsed (m1 m2 : parsed_t) : parsed_t :=
  union_with (fun h1 h2 => Some (merge_histogram h1 h2)) m1 m2.

(** ** Vocabulary for the market-value loop *)

Section SummaryOk.

Context {V : Type}.
Variable str : V -> string.
Variable marketvalue : histogram -> pyresult (gmap string V).

(** The entry that [main] appends for variant [k] with histogram [h]: the
    key split into item id and bonus ids, and the three fields of the
    estimate printed with [str]. *)
Definition summary_ok (k : dict_key_t) (h : histogram) (e : mv_entry) : Prop :=
  mv_item e :: mv_bonusIds e = k /\
  exists d mv qt mn,
    marketvalue h = Ok d /\
    d !! "marketvalue" = Some mv /\ d !! "quantity" = Some qt /\ d !! "MIN" = Some mn /\
    mv_marketvalue e = str mv /\ mv_quantity e = str qt /\ mv_MIN e = str mn.

End SummaryOk.

(** Closed equations between results are decided by evaluation. *)
Ltac by_compute :=
  match goal with
  | |- ?P => apply (bool_decide_unpack P); vm_compute; exact I
  end.

Example int_truediv_10 : int_truediv 100000 10000 = Ok f10_0.
Proof. by_compute. Qed.

Example int_truediv_08 : int_truediv 8000 10000 = Ok f0_8.
Proof. by_compute. Qed.

(** [1 / 10000] is [0x3F1A36E2EB1C432D], [-5 / 10000] is
    [0xBF40624DD2F1A9FC], [(2 ** 53 + 1) / 10000] is [0x426A36E2EB1C432D]. *)
Example int_truediv_rounded :
  int_truediv 1 10000 = Ok (S754_finite false 7378697629483821 (-66)) /\
  int_truediv (-5) 10000 = Ok (S754_finite true 4611686018427388 (-63)) /\
  int_truediv 9007199254740993 10000 = Ok (S754_finite false 7378697629483821 (-13)).
Proof. repeat split; by_compute. Qed.

Example int_truediv_big : int_truediv (10 ^ 313) 10000 = Raise OverflowError.
Proof. by_compute. Qed.

Example dict_key_order :
  dict_key (listing 7 (Some [1; 2]) (Some 1) None 1) = Ok [7; 1; 2] /\
  dict_key (listing 7 (Some [2; 1]) (Some 1) None 1) = Ok [7; 2; 1] /\
  dict_key (listing 7 None (Some 1) None 1) = Ok [7].
Proof. repeat split. Qed.

Example priced_no_id_raises :
  parse_auctions (PyList [priced_no_id]) = Raise (KeyError "id").
Proof. by_compute. Qed.

(** ** The division stays in range *)

Lemma digits2_pos_size (p : positive) : digits2_pos p = Pos.size p.
Proof. induction p as [p IH|p IH|]; simpl; by rewrite ?IH. Qed.

Lemma Zdigits2_nonneg (m : Z) : 0 <= Zdigits2 m.
Proof. destruct m; simpl; lia. Qed.

Lemma Zdigits2_gt (m : Z) : 0 <= m -> m < 2 ^ Zdigits2 m.
Proof.
  destruct m as [|p|p]; simpl; [lia| |lia]. intros _.
  rewrite digits2_pos_size. pose proof (Pos.size_gt p) as H.
  apply Pos2Z.pos_lt_pos in H. by rewrite Pos2Z.inj_pow in H.
Qed.

Lemma Zdigits2_le (m n : Z) : 0 <= m -> 0 <= n -> m < 2 ^ n -> Zdigits2 m <= n.
Proof.
  destruct m as [|p|p]; simpl; [lia| |lia]. intros _ Hn Hlt.
  rewrite digits2_pos_size. pose proof (Pos.size_le p) as H.
  apply Pos2Z.pos_le_pos in H. rewrite Pos2Z.inj_pow in H.
  destruct (Z.le_gt_cases (Z.pos (Pos.size p)) n) as [|Hgt]; [done|].
  assert (2 ^ (n + 1) <= 2 ^ Z.pos (Pos.size p)) as Hpow
    by (apply Z.pow_le_mono_r; lia).
  rewrite Z.pow_add_r in Hpow by lia. lia.
Qed.

Lemma shr_1_m (mrs : shr_record) :
  0 <= shr_m mrs -> shr_m (shr_1 mrs) = Z.shiftr (shr_m mrs) 1.
Proof.
  rewrite <- Z.div2_spec. destruct mrs as [m r s]. simpl.
  destruct m as [|[p|p|]|p]; simpl; lia || done.
Qed.

Lemma iter_shr_1_m (p : positive) (mrs : shr_record) :
  0 <= shr_m mrs ->
  shr_m (SpecFloat.iter_pos shr_1 p mrs) = Z.shiftr (shr_m mrs) (Z.pos p).
Proof.
  revert mrs. induction p as [p IH|p IH|]; intros mrs Hm; simpl.
  - assert (0 <= shr_m (shr_1 mrs)) as H1
      by (rewrite shr_1_m by done; by apply Z.shiftr_nonneg).
    assert (0 <= shr_m (SpecFloat.iter_pos shr_1 p (shr_1 mrs))) as H2
      by (rewrite IH by done; by apply Z.shiftr_nonneg).
    rewrite IH, IH, shr_1_m by done.
    rewrite !Z.shiftr_shiftr by lia. f_equal. lia.
  - assert (0 <= shr_m (SpecFloat.iter_pos shr_1 p mrs)) as H2
      by (rewrite IH by done; by apply Z.shiftr_nonneg).
    rewrite IH, IH by done.
    rewrite !Z.shiftr_shiftr by lia. f_equal. lia.
  - by apply shr_1_m.
Qed.

Lemma shr_spec (mrs : shr_record) (e n : Z) :
  0 <= shr_m mrs ->
  shr_m (shr mrs e n).1 = Z.shiftr (shr_m mrs) (Z.max 0 n) /\
  (shr mrs e n).2 = e + Z.max 0 n.
Proof.
  intros Hm. destruct n as [|p|p]; simpl.
  - split; [done | lia].
  - split; [by apply iter_shr_1_m | lia].
  - split; [done | lia].
Qed.

Lemma shr_record_of_loc_m (m : Z) (l : location) : shr_m (shr_record_of_loc m l) = m.
Proof. by destruct l as [|[]]. Qed.

(** Shifting to the format exponent leaves at most 53 bits. *)
Lemma shr_fexp_spec (m e : Z) (l : location) :
  0 <= m ->
  let r := shr_fexp prec emax m e l in
  0 <= shr_m r.1 < 2 ^ 53 /\
  r.2 = Z.max e (Z.max (Zdigits2 m + e - 53) (-1074)).
Proof.
  intros Hm r. unfold r, shr_fexp.
  set (n := fexp prec emax (Zdigits2 m + e) - e).
  destruct (shr_spec (shr_record_of_loc m l) e n) as [Hs He];
    [by rewrite shr_record_of_loc_m|].
  rewrite Hs, He, shr_record_of_loc_m.
  assert (n = Z.max (Zdigits2 m + e - 53) (-1074) - e) as Hn by reflexivity.
  split; [|lia]. split; [apply Z.shiftr_nonneg; lia|].
  rewrite Z.shiftr_div_pow2 by lia.
  apply Z.div_lt_upper_bound; [apply Z.pow_pos_nonneg; lia|].
  rewrite <- Z.pow_add_r by lia.
  eapply Z.lt_le_trans; [by apply Zdigits2_gt|].
  apply Z.pow_le_mono_r; lia.
Qed.

Lemma Zdigits2_lower (m : Z) : 1 <= m -> 2 ^ (Zdigits2 m - 1) <= m.
Proof.
  destruct m as [|p|p]; simpl; [lia| |lia]. intros _.
  rewrite digits2_pos_size. pose proof (Pos.size_le p) as H.
  apply Pos2Z.pos_le_pos in H. rewrite Pos2Z.inj_pow in H.
  assert (2 ^ Z.pos (Pos.size p) = 2 * 2 ^ (Z.pos (Pos.size p) - 1)) as Hpow.
  { rewrite <- Z.pow_succ_r by lia. f_equal. lia. }
  lia.
Qed.

(** Above the subnormal range the shift keeps a positive mantissa. *)
Lemma shr_fexp_pos (m e : Z) (l : location) :
  1 <= m -> -1074 <= e ->
  1 <= shr_m (shr_fexp prec emax m e l).1.
Proof.
  intros Hm He. unfold shr_fexp.
  set (n := fexp prec emax (Zdigits2 m + e) - e).
  destruct (shr_spec (shr_record_of_loc m l) e n) as [Hs _];
    [rewrite shr_record_of_loc_m; lia|].
  rewrite Hs, shr_record_of_loc_m.
  assert (n = Z.max (Zdigits2 m + e - 53) (-1074) - e) as Hn by reflexivity.
  pose proof (Zdigits2_lower m Hm) as Hlow.
  assert (1 <= Zdigits2 m) as Hd by (destruct m; simpl in *; lia).
  rewrite Z.shiftr_div_pow2 by lia.
  apply Z.div_le_lower_bound; [apply Z.pow_pos_nonneg; lia|].
  rewrite Z.mul_1_r. etrans; [|exact Hlow].
  apply Z.pow_le_mono_r; lia.
Qed.

Lemma round_nearest_even_bounds (m : Z) (l : location) :
  m <= round_nearest_even m l <= m + 1.
Proof. destruct l as [|[]]; simpl; try lia. destruct (Z.even m); lia. Qed.

(** Rounding a positive mantissa above the subnormal range gives a finite
    float, or an infinity when the exponent grows beyond the largest one. *)
Lemma binary_round_aux_pos (sx : bool) (mx ex : Z) (lx : location) :
  1 <= mx -> -1074 <= ex ->
  exists m e,
    e <= Z.max ex (Zdigits2 mx + ex - 53) + 1 /\
    binary_round_aux prec emax sx mx ex lx =
    if e <=? emax - prec then S754_finite sx m e else S754_infinity sx.
Proof.
  intros Hm He. unfold binary_round_aux.
  assert (0 <= mx) as Hm0 by lia.
  pose proof (shr_fexp_spec mx ex lx Hm0) as [Hm1 He1].
  pose proof (shr_fexp_pos mx ex lx Hm He) as Hp1.
  destruct (shr_fexp prec emax mx ex lx) as [mrs' e'].
  simpl in Hm1, He1, Hp1.
  pose proof (round_nearest_even_bounds (shr_m mrs') (loc_of_shr_record mrs')) as Hr.
  set (r := round_nearest_even (shr_m mrs') (loc_of_shr_record mrs')) in *.
  assert (0 <= r) as Hr0 by lia.
  pose proof (shr_fexp_spec r e' loc_Exact Hr0) as [Hm2 He2].
  assert (1 <= shr_m (shr_fexp prec emax r e' loc_Exact).1) as Hp2
    by (apply shr_fexp_pos; lia).
  destruct (shr_fexp prec emax r e' loc_Exact) as [mrs'' e''].
  simpl in Hm2, He2, Hp2.
  assert (Zdigits2 r <= 54) as Hdr.
  { apply Zdigits2_le; [done|lia|]. change (2 ^ 54) with (2 * 2 ^ 53). lia. }
  destruct (shr_m mrs'') as [|p|p]; [lia| |lia].
  exists p, e''. split; [lia | done].
Qed.

(** The mantissa and exponent that [int_truediv] rounds, for the divisor
    10000: a quotient of at least 53 bits, above the subnormal range. *)
Lemma SFdiv_core_scale (a : Z) :
  a <> 0 ->
  exists q e' l,
    SFdiv_core_binary prec emax (Z.abs a) 0 (Z.abs 10000) 0 = (q, e', l) /\
    1 <= q /\ -1074 <= e' <= 0 /\
    Zdigits2 q <= Z.max (Zdigits2 (Z.abs a)) 67.
Proof.
  intros Hnz. unfold SFdiv_core_binary.
  set (d1 := Zdigits2 (Z.abs a)).
  assert (1 <= d1) as Hd1 by (unfold d1; destruct a; simpl; lia).
  assert (Z.abs a < 2 ^ d1) as Hlt by (apply Zdigits2_gt; lia).
  assert (2 ^ (d1 - 1) <= Z.abs a) as Hge by (apply Zdigits2_lower; lia).
  change (Zdigits2 (Z.abs 10000)) with 14.
  set (e' := Z.min (fexp prec emax (d1 + 0 - (14 + 0))) (0 - 0)).
  assert (e' = Z.min (Z.max (d1 - 67) (-1074)) 0) as He'
    by (unfold e', fexp, SpecFloat.emin, prec, emax; lia).
  set (m' := match 0 - 0 - e' with
             | 0 => Z.abs a
             | Z.pos _ => Z.shiftl (Z.abs a) (0 - 0 - e')
             | Z.neg _ => 0
             end).
  assert (2 ^ 66 <= m' /\ m' < 2 ^ Z.max d1 67) as [Hm0 Hm1].
  { unfold m'. destruct (0 - 0 - e') as [|s|s] eqn:Hs.
    - split.
      + etrans; [|exact Hge]. apply Z.pow_le_mono_r; lia.
      + eapply Z.lt_le_trans; [done|]. apply Z.pow_le_mono_r; lia.
    - rewrite Z.shiftl_mul_pow2 by lia.
      assert (Z.pos s = 67 - d1) as -> by lia. split.
      + assert (66 = d1 - 1 + (67 - d1)) as -> by lia.
        rewrite Z.pow_add_r by lia.
        apply Z.mul_le_mono_nonneg_r; [apply Z.pow_nonneg; lia | done].
      + assert (Z.max d1 67 = d1 + (67 - d1)) as -> by lia.
        rewrite Z.pow_add_r by lia.
        apply Z.mul_lt_mono_pos_r; [apply Z.pow_pos_nonneg; lia | done].
    - lia. }
  pose proof (Z_div_mod m' (Z.abs 10000) eq_refl) as Hdiv.
  destruct (Z.div_eucl m' (Z.abs 10000)) as [q r].
  change (Z.abs 10000) with 10000 in *. destruct Hdiv as [Hq Hr].
  assert (10000 <= 2 ^ 66) as Hscale by (by apply Z.leb_le).
  exists q, e', (new_location 10000 r). split; [done|].
  split; [lia|]. split; [lia|]. apply Zdigits2_le; lia.
Qed.

(** Dividing a nonzero price by the currency scale gives a finite, nonzero
    float with the sign of the price, unless it overflows. *)
Lemma int_truediv_nonzero (a : Z) :
  a <> 0 ->
  int_truediv a 10000 = Raise OverflowError \/
  exists m e, int_truediv a 10000 = Ok (S754_finite (a <? 0) m e).
Proof.
  intros Hnz. unfold int_truediv. simpl (10000 =? 0).
  cbv iota. destruct (Z.eqb_spec a 0) as [|_]; [done|].
  destruct (SFdiv_core_scale a Hnz) as (q & e' & l & -> & Hq & He' & _).
  simpl (10000 <? 0). rewrite xorb_false_r.
  destruct (binary_round_aux_pos (a <? 0) q e' l) as (m & e & _ & ->); [lia..|].
  destruct (e <=? emax - prec); eauto.
Qed.

(** Below [2 ^ 1000] it does not overflow. *)
Lemma int_truediv_finite (a : Z) :
  a <> 0 -> Z.abs a < 2 ^ 1000 ->
  exists m e, int_truediv a 10000 = Ok (S754_finite (a <? 0) m e).
Proof.
  intros Hnz Ha. unfold int_truediv. simpl (10000 =? 0).
  cbv iota. destruct (Z.eqb_spec a 0) as [|_]; [done|].
  destruct (SFdiv_core_scale a Hnz) as (q & e' & l & -> & Hq & He' & Hdq).
  simpl (10000 <? 0). rewrite xorb_false_r.
  assert (Zdigits2 (Z.abs a) <= 1000) as Hd by (apply Zdigits2_le; lia).
  destruct (binary_round_aux_pos (a <? 0) q e' l) as (m & e & He & ->); [lia..|].
  assert ((e <=? emax - prec) = true) as ->; [|by eauto].
  apply Z.leb_le. unfold emax, prec. lia.
Qed.

Lemma int_truediv_in_range (a : Z) :
  Z.abs a < 2 ^ 1000 -> exists p, int_truediv a 10000 = Ok p.
Proof.
  intros Ha. destruct (Z.eq_dec a 0) as [->|Hnz]; [by eexists|].
  destruct (int_truediv_finite a Hnz Ha) as (m & e & ->). eauto.
Qed.

(** ** Reading the price *)

Lemma present_nonzero_Some (field : option Z) (v : Z) :
  present_nonzero field = Some v <-> field = Some v /\ v <> 0.
Proof.
  unfold present_nonzero. destruct field as [w|]; [|naive_solver].
  destruct (Z.eqb_spec w 0); naive_solver.
Qed.

Lemma present_nonzero_None (field : option Z) :
  present_nonzero field = None <-> field = None \/ field = Some 0.
Proof.
  unfold present_nonzero. destruct field as [w|]; [|naive_solver].
  destruct (Z.eqb_spec w 0); naive_solver.
Qed.

Lemma buy_price_None (auc : auction) : buy_price auc = None <-> unpriced auc.
Proof.
  unfold buy_price, unpriced.
  rewrite <- !present_nonzero_None.
  destruct (present_nonzero (auc_buyout auc)), (present_nonzero (auc_unit_price auc));
    naive_solver.
Qed.

Lemma buy_price_usable (auc : auction) : is_Some (buy_price auc) <-> usable_price auc.
Proof.
  unfold buy_price, usable_price. split.
  - intros [bp Hbp].
    destruct (present_nonzero (auc_buyout auc)) as [b|] eqn:Hb.
    + apply present_nonzero_Some in Hb. left. eauto.
    + destruct (present_nonzero (auc_unit_price auc)) as [u|] eqn:Hu; [|done].
      apply present_nonzero_Some in Hu. right. eauto.
  - intros [(b & Hb & Hnz)|(u & Hu & Hnz)].
    + assert (present_nonzero (auc_buyout auc) = Some b) as ->
        by (by apply present_nonzero_Some).
      eauto.
    + assert (present_nonzero (auc_unit_price auc) = Some u) as ->
        by (by apply present_nonzero_Some).
      destruct (present_nonzero (auc_buyout auc)); eauto.
Qed.

Lemma unpriced_not_usable (auc : auction) : unpriced auc <-> ~ usable_price auc.
Proof.
  rewrite <- buy_price_None, <- buy_price_usable, <- eq_None_not_Some. done.
Qed.

Lemma unit_price_None (auc : auction) : unit_price auc = None <-> unpriced auc.
Proof.
  rewrite <- buy_price_None. unfold unit_price.
  destruct (buy_price auc); naive_solver.
Qed.

Lemma unit_price_is_Some (auc : auction) :
  is_Some (unit_price auc) <-> is_Some (buy_price auc).
Proof.
  unfold unit_price. destruct (buy_price auc); split; intros [? ?]; eauto; done.
Qed.

(** ** The variant key *)

Lemma append_each (bonus_lists acc : list Z) :
  fold_left (fun acc bonus_id => acc ++ [bonus_id]) bonus_lists acc = acc ++ bonus_lists.
Proof.
  revert acc. induction bonus_lists as [|b bl IH]; intros acc; simpl.
  - by rewrite app_nil_r.
  - rewrite IH, <- app_assoc. done.
Qed.

Lemma dict_key_Ok (auc : auction) (it : item_obj) (id : Z) :
  auc_item auc = Some it -> item_id it = Some id ->
  dict_key auc = Ok (id :: bonus_ids auc).
Proof.
  intros Hit Hid. unfold dict_key, bonus_ids. rewrite Hit. simpl. rewrite Hid. simpl.
  destruct (item_bonus_lists it) as [bl|]; simpl; [|done].
  by rewrite append_each.
Qed.

Lemma dict_key_inv (auc : auction) (k : dict_key_t) :
  dict_key auc = Ok k ->
  exists it id, auc_item auc = Some it /\ item_id it = Some id /\ k = id :: bonus_ids auc.
Proof.
  intros Hk. destruct (auc_item auc) as [it|] eqn:Hit.
  - destruct (item_id it) as [id|] eqn:Hid.
    + exists it, id. rewrite (dict_key_Ok auc it id Hit Hid) in Hk.
      injection Hk as <-. done.
    + unfold dict_key in Hk. rewrite Hit in Hk. simpl in Hk. rewrite Hid in Hk. done.
  - unfold dict_key in Hk. rewrite Hit in Hk. done.
Qed.

Lemma dict_key_missing (auc : auction) :
  missing_item_id auc -> raises (dict_key auc).
Proof.
  unfold missing_item_id, dict_key. destruct (auc_item auc) as [it|]; simpl; [|done].
  intros ->. done.
Qed.

(** ** One price bucket *)

Lemma add_quantity_insert (h : histogram) (p : float) (q : Z) :
  add_quantity h p q = <[p := default 0 (h !! p) + q]> h.
Proof. unfold add_quantity. destruct (h !! p); done. Qed.

Lemma add_quantity_lookup (h : histogram) (p p' : float) (q : Z) :
  add_quantity h p q !! p' =
  if decide (p = p') then Some (default 0 (h !! p) + q) else h !! p'.
Proof. rewrite add_quantity_insert. apply lookup_insert. Qed.

Lemma add_quantity_nonempty (h : histogram) (p : float) (q : Z) :
  add_quantity h p q <> ∅.
Proof. rewrite add_quantity_insert. apply insert_non_empty. Qed.

Lemma add_quantity_comm (h : histogram) (p1 p2 : float) (q1 q2 : Z) :
  add_quantity (add_quantity h p1 q1) p2 q2 = add_quantity (add_quantity h p2 q2) p1 q1.
Proof.
  rewrite !add_quantity_insert. destruct (decide (p1 = p2)) as [->|Hne].
  - rewrite !lookup_insert_eq, !insert_insert_eq. simpl. f_equal. lia.
  - rewrite !lookup_insert_ne by done. by apply insert_insert_ne.
Qed.

Lemma hist_total_empty : hist_total ∅ = 0.
Proof. apply map_fold_empty. Qed.

Lemma hist_total_insert_fresh (h : histogram) (p : float) (q : Z) :
  h !! p = None -> hist_total (<[p := q]> h) = q + hist_total h.
Proof.
  intros Hp. unfold hist_total.
  rewrite map_fold_insert_L; [done| |done].
  intros. lia.
Qed.

Lemma hist_total_delete (h : histogram) (p : float) (q : Z) :
  h !! p = Some q -> hist_total h = q + hist_total (delete p h).
Proof.
  intros Hp. unfold hist_total.
  rewrite (map_fold_delete_L _ _ p q h); [done| |done].
  intros. lia.
Qed.

Lemma hist_total_add (h : histogram) (p : float) (q : Z) :
  hist_total (add_quantity h p q) = hist_total h + q.
Proof.
  unfold add_quantity. destruct (h !! p) as [old|] eqn:Hp.
  - rewrite <- insert_delete_eq.
    rewrite hist_total_insert_fresh by apply lookup_delete_eq.
    rewrite (hist_total_delete h p old Hp). lia.
  - rewrite hist_total_insert_fresh by done. lia.
Qed.

(** ** Adding one entry to the result *)

Lemma add_entry_lookup_eq (m : parsed_t) (k : dict_key_t) (p : float) (q : Z) :
  add_entry m (k, p, q) !! k = Some (add_quantity (default ∅ (m !! k)) p q).
Proof. apply lookup_insert_eq. Qed.

Lemma add_entry_lookup_ne (m : parsed_t) (k k' : dict_key_t) (p : float) (q : Z) :
  k <> k' -> add_entry m (k, p, q) !! k' = m !! k'.
Proof. intros. by apply lookup_insert_ne. Qed.

Lemma add_entry_comm (m : parsed_t) (e1 e2 : entry) :
  add_entry (add_entry m e1) e2 = add_entry (add_entry m e2) e1.
Proof.
  destruct e1 as [[k1 p1] q1], e2 as [[k2 p2] q2]. unfold add_entry.
  destruct (decide (k1 = k2)) as [->|Hne].
  - rewrite !lookup_insert_eq, !insert_insert_eq. simpl.
    by rewrite add_quantity_comm.
  - rewrite !lookup_insert_ne by done. by apply insert_insert_ne.
Qed.

Lemma bucket_add_entry (m : parsed_t) (k k' : dict_key_t) (p p' : float) (q : Z) :
  bucket (add_entry m (k, p, q)) k' p' =
  if decide (k = k' /\ p = p') then Some (default 0 (bucket m k p) + q)
  else bucket m k' p'.
Proof.
  unfold bucket. destruct (decide (k = k')) as [<-|Hk].
  - rewrite add_entry_lookup_eq. simpl. rewrite add_quantity_lookup.
    destruct (m !! k) as [h|] eqn:Hm; simpl;
      repeat case_decide; naive_solver.
  - rewrite add_entry_lookup_ne by done. case_decide; naive_solver.
Qed.

Lemma add_entry_no_empty (m : parsed_t) (e : entry) :
  no_empty_histogram m -> no_empty_histogram (add_entry m e).
Proof.
  destruct e as [[k p] q]. intros Hm k' h.
  destruct (decide (k = k')) as [<-|Hk].
  - rewrite add_entry_lookup_eq. intros [= <-]. apply add_quantity_nonempty.
  - rewrite add_entry_lookup_ne by done. apply Hm.
Qed.

(** ** The loop, entry by entry *)

Lemma loop_body_entry (m : parsed_t) (auc : auction) :
  loop_body m auc = o ← entry_of auc; Ok (from_option (add_entry m) m o).
Proof.
  unfold loop_body, entry_of. destruct (unit_price auc) as [[up|e]|]; try done.
  simpl. destruct (dict_key auc) as [k|e]; try done.
  simpl. destruct (auc_quantity auc) as [q|]; done.
Qed.

Lemma loop_entries (l : list auction) (m : parsed_t) :
  loop m l = es ← entries_of l; Ok (foldl add_entry m es).
Proof.
  revert m. induction l as [|auc rest IH]; intros m; simpl; [done|].
  rewrite loop_body_entry. destruct (entry_of auc) as [o|e]; simpl; [|done].
  rewrite IH. destruct (entries_of rest) as [es|e]; simpl; [|done].
  destruct o; done.
Qed.

Lemma loop_app (l1 l2 : list auction) (m : parsed_t) :
  loop m (l1 ++ l2) = m' ← loop m l1; loop m' l2.
Proof.
  revert m. induction l1 as [|auc rest IH]; intros m; simpl; [done|].
  destruct (loop_body m auc) as [m1|e]; simpl; [|done]. apply IH.
Qed.

Lemma loop_body_skip (m : parsed_t) (auc : auction) :
  unpriced auc -> loop_body m auc = Ok m.
Proof.
  intros Hu. apply unit_price_None in Hu. unfold loop_body. by rewrite Hu.
Qed.

(** ** Folding a list of entries *)

Lemma foldl_add_entry_bucket (es : list entry) (m : parsed_t) (k : dict_key_t) (p : float) :
  bucket (foldl add_entry m es) k p =
  match filter (fun e : entry => e.1.1 = k /\ e.1.2 = p) es with
  | [] => bucket m k p
  | b => Some (default 0 (bucket m k p) + entries_total b)
  end.
Proof.
  revert m. induction es as [|[[k' p'] q'] es IH]; intros m; [done|].
  simpl foldl. rewrite IH, bucket_add_entry.
  destruct (decide (k' = k /\ p' = p)) as [[-> ->]|Hne].
  - rewrite filter_cons_True by done.
    destruct (filter _ es) as [|e b]; simpl; f_equal; lia.
  - rewrite filter_cons_False by done. done.
Qed.

Lemma foldl_add_entry_total (es : list entry) (m : parsed_t) (k : dict_key_t) :
  hist_total (default ∅ (foldl add_entry m es !! k)) =
  hist_total (default ∅ (m !! k)) + entries_total (filter (fun e : entry => e.1.1 = k) es).
Proof.
  revert m. induction es as [|[[k' p'] q'] es IH]; intros m; [simpl; lia|].
  simpl foldl. rewrite IH. destruct (decide (k' = k)) as [->|Hne].
  - rewrite filter_cons_True by done.
    rewrite add_entry_lookup_eq. simpl. rewrite hist_total_add. lia.
  - rewrite filter_cons_False by done.
    rewrite add_entry_lookup_ne by done. done.
Qed.

Lemma foldl_add_entry_dom (es : list entry) (m : parsed_t) (k : dict_key_t) :
  is_Some (foldl add_entry m es !! k) <->
  is_Some (m !! k) \/ filter (fun e : entry => e.1.1 = k) es <> [].
Proof.
  revert m. induction es as [|[[k' p'] q'] es IH]; intros m; [naive_solver|].
  simpl foldl. rewrite IH. destruct (decide (k' = k)) as [->|Hne].
  - rewrite filter_cons_True by done.
    rewrite add_entry_lookup_eq. naive_solver.
  - rewrite filter_cons_False by done.
    rewrite add_entry_lookup_ne by done. done.
Qed.

Lemma foldl_add_entry_no_empty (es : list entry) (m : parsed_t) :
  no_empty_histogram m -> no_empty_histogram (foldl add_entry m es).
Proof.
  revert m. induction es as [|e es IH]; intros m Hm; [done|].
  simpl. by apply IH, add_entry_no_empty.
Qed.

Lemma foldl_add_entry_perm (es es' : list entry) (m : parsed_t) :
  es ≡ₚ es' -> foldl add_entry m es = foldl add_entry m es'.
Proof.
  intros Hp. revert m.
  induction Hp as [|e es es' _ IH|e1 e2 es|es1 es2 es3 _ IH1 _ IH2]; intros m; simpl.
  - done.
  - apply IH.
  - by rewrite add_entry_comm.
  - by rewrite IH1.
Qed.

(** ** From listings to entries *)

Lemma entry_of_Some (auc : auction) (k : dict_key_t) (p : float) (q : Z) :
  entry_of auc = Ok (Some (k, p, q)) <->
  unit_price auc = Some (Ok p) /\ dict_key auc = Ok k /\ auc_quantity auc = Some q.
Proof.
  unfold entry_of. destruct (unit_price auc) as [[up|e]|]; simpl; try naive_solver.
  destruct (dict_key auc) as [key|e]; simpl; try naive_solver.
  destruct (auc_quantity auc) as [qty|]; simpl; naive_solver.
Qed.

Lemma entry_of_None (auc : auction) :
  entry_of auc = Ok None <-> unpriced auc.
Proof.
  rewrite <- unit_price_None. unfold entry_of.
  destruct (unit_price auc) as [[up|e]|]; simpl; try naive_solver.
  destruct (dict_key auc) as [key|e]; simpl; try naive_solver.
  destruct (auc_quantity auc) as [qty|]; simpl; naive_solver.
Qed.

Lemma entries_of_filter (P : auction -> Prop) (Q : entry -> Prop)
    `{!forall auc, Decision (P auc)} `{!forall e, Decision (Q e)}
    (l : list auction) (es : list entry) :
  (forall auc e, entry_of auc = Ok (Some e) -> P auc <-> Q e) ->
  (forall auc, entry_of auc = Ok None -> ~ P auc) ->
  entries_of l = Ok es ->
  entries_total (filter Q es) = quantity_sum (filter P l) /\
  length (filter Q es) = length (filter P l).
Proof.
  intros HS HN. revert es. induction l as [|auc rest IH]; intros es; simpl.
  - intros [= <-]. done.
  - destruct (entry_of auc) as [o|ex] eqn:Ho; simpl; [|done].
    destruct (entries_of rest) as [es'|ex]; simpl; [|done].
    intros [= <-]. destruct (IH es' eq_refl) as [IHt IHl].
    destruct o as [[[k p] q]|]; simpl.
    + pose proof (HS _ _ Ho) as Hiff. apply entry_of_Some in Ho as (_ & _ & Hq).
      destruct (decide (P auc)) as [HP|HP].
      * rewrite (filter_cons_True P) by done.
        rewrite (filter_cons_True Q) by (by apply Hiff).
        simpl. rewrite Hq. simpl. split; congruence.
      * rewrite (filter_cons_False P) by done.
        rewrite (filter_cons_False Q) by (by rewrite <- Hiff).
        done.
    + rewrite (filter_cons_False P) by (by apply HN). done.
Qed.

Lemma parse_auctions_entries (l : list auction) :
  parse_auctions (PyList l) = es ← entries_of l; Ok (foldl add_entry ∅ es).
Proof. apply loop_entries. Qed.

Lemma parse_auctions_skip (pre post : list auction) (auc : auction) :
  unpriced auc ->
  parse_auctions (PyList (pre ++ auc :: post)) = parse_auctions (PyList (pre ++ post)).
Proof.
  intros Hu. unfold parse_auctions. rewrite !loop_app.
  destruct (loop ∅ pre) as [m|e]; simpl; [|done].
  by rewrite loop_body_skip.
Qed.

Lemma entries_of_elem (l : list auction) (es : list entry) (auc : auction) :
  entries_of l = Ok es -> auc ∈ l -> exists o, entry_of auc = Ok o.
Proof.
  revert es. induction l as [|a rest IH]; intros es Hes Hin.
  - by apply elem_of_nil in Hin.
  - simpl in Hes. destruct (entry_of a) as [o|ex] eqn:Ho; simpl in Hes; [|done].
    destruct (entries_of rest) as [es'|ex]; simpl in Hes; [|done].
    apply elem_of_cons in Hin as [->|Hin]; eauto.
Qed.

Lemma parse_auctions_raises (l : list auction) (auc : auction) :
  auc ∈ l -> raises (entry_of auc) -> raises (parse_auctions (PyList l)).
Proof.
  intros Hin Hr. rewrite parse_auctions_entries.
  destruct (entries_of l) as [es|ex] eqn:Hes; simpl; [|done].
  destruct (entries_of_elem l es auc Hes Hin) as [o Ho].
  rewrite Ho in Hr. done.
Qed.

Lemma entries_of_cons (auc : auction) (rest : list auction) (es : list entry) :
  entries_of (auc :: rest) = Ok es <->
  exists o es', entry_of auc = Ok o /\ entries_of rest = Ok es' /\ es = option_list o ++ es'.
Proof.
  simpl. destruct (entry_of auc) as [o|ex]; simpl; [|naive_solver].
  destruct (entries_of rest) as [es'|ex]; simpl; naive_solver.
Qed.

Lemma entries_of_perm (l l' : list auction) :
  l ≡ₚ l' ->
  forall es, entries_of l = Ok es -> exists es', entries_of l' = Ok es' /\ es ≡ₚ es'.
Proof.
  induction 1 as [|a l l' _ IH|a b l|l1 l2 l3 _ IH1 _ IH2]; intros es Hes.
  - eauto.
  - apply entries_of_cons in Hes as (o & es0 & Ho & Hes0 & ->).
    destruct (IH es0 Hes0) as (es1 & Hes1 & Hp).
    exists (option_list o ++ es1). split.
    + apply entries_of_cons. eauto.
    + by rewrite Hp.
  - apply entries_of_cons in Hes as (ob & es0 & Hob & Hes0 & ->).
    apply entries_of_cons in Hes0 as (oa & es1 & Hoa & Hes1 & ->).
    exists (option_list oa ++ option_list ob ++ es1). split.
    + apply entries_of_cons. eexists _, _. split; [done|]. split; [|done].
      apply entries_of_cons. eauto.
    + rewrite !app_assoc. apply Permutation_app_tail, Permutation_app_comm.
  - destruct (IH1 es Hes) as (es2 & Hes2 & Hp12).
    destruct (IH2 es2 Hes2) as (es3 & Hes3 & Hp23).
    exists es3. split; [done|]. by etrans.
Qed.

Lemma entries_of_source (l : list auction) (es : list entry) (e : entry) :
  entries_of l = Ok es -> e ∈ es ->
  exists auc, auc ∈ l /\ entry_of auc = Ok (Some e).
Proof.
  revert es. induction l as [|a rest IH]; intros es Hes Hin.
  - injection Hes as <-. by apply elem_of_nil in Hin.
  - apply entries_of_cons in Hes as (o & es0 & Ho & Hes0 & ->).
    apply elem_of_app in Hin as [Hin|Hin].
    + destruct o as [e'|]; simpl in Hin; [|by apply elem_of_nil in Hin].
      apply list_elem_of_singleton in Hin as ->.
      exists a. split; [apply elem_of_cons; by left | done].
    + destruct (IH es0 Hes0 Hin) as (auc & Hauc & He).
      exists auc. split; [apply elem_of_cons; by right | done].
Qed.

Lemma parse_auctions_Ok (l : list auction) (m : parsed_t) :
  parse_auctions (PyList l) = Ok m <->
  exists es, entries_of l = Ok es /\ m = foldl add_entry ∅ es.
Proof.
  rewrite parse_auctions_entries.
  destruct (entries_of l) as [es|ex]; simpl; naive_solver.
Qed.

Lemma in_variant_entry (k : dict_key_t) (auc : auction) (e : entry) :
  entry_of auc = Ok (Some e) -> in_variant k auc <-> e.1.1 = k.
Proof.
  destruct e as [[k' p] q]. intros (Hp & Hk & Hq)%entry_of_Some.
  unfold in_variant. rewrite Hk, <- unit_price_is_Some, Hp. naive_solver.
Qed.

Lemma in_variant_skipped (k : dict_key_t) (auc : auction) :
  entry_of auc = Ok None -> ~ in_variant k auc.
Proof.
  intros Hu%entry_of_None%buy_price_None [[bp Hbp] _]. congruence.
Qed.

Lemma in_bucket_entry (k : dict_key_t) (p : float) (auc : auction) (e : entry) :
  entry_of auc = Ok (Some e) -> in_bucket k p auc <-> e.1.1 = k /\ e.1.2 = p.
Proof.
  destruct e as [[k' p'] q]. intros (Hp & Hk & Hq)%entry_of_Some.
  unfold in_bucket. rewrite Hk, Hp. naive_solver.
Qed.

Lemma in_bucket_skipped (k : dict_key_t) (p : float) (auc : auction) :
  entry_of auc = Ok None -> ~ in_bucket k p auc.
Proof.
  intros Hu%entry_of_None%unit_price_None [Hp _]. congruence.
Qed.

(** The histogram of a variant exists exactly when some listing of the
    variant is counted, and sums their quantities. *)
Lemma parse_auctions_variant (l : list auction) (m : parsed_t) (k : dict_key_t) :
  parse_auctions (PyList l) = Ok m ->
  (is_Some (m !! k) <-> filter (in_variant k) l <> []) /\
  hist_total (default ∅ (m !! k)) = quantity_sum (filter (in_variant k) l).
Proof.
  intros (es & Hes & ->)%parse_auctions_Ok.
  destruct (entries_of_filter (in_variant k) (fun e : entry => e.1.1 = k) l es)
    as [Ht Hl]; [apply in_variant_entry | apply in_variant_skipped | done |].
  split.
  - rewrite foldl_add_entry_dom, lookup_empty, <- !length_zero_iff_nil, Hl.
    split; [intros [[? [=]]|?]; done | by right].
  - rewrite foldl_add_entry_total, lookup_empty. simpl.
    rewrite hist_total_empty, Ht. lia.
Qed.

(** A bucket exists exactly when some listing falls in it, and sums their
    quantities. *)
Lemma parse_auctions_bucket (l : list auction) (m : parsed_t)
    (k : dict_key_t) (p : float) :
  parse_auctions (PyList l) = Ok m ->
  bucket m k p =
  match filter (in_bucket k p) l with
  | [] => None
  | b => Some (quantity_sum b)
  end.
Proof.
  intros (es & Hes & ->)%parse_auctions_Ok.
  destruct (entries_of_filter (in_bucket k p)
              (fun e : entry => e.1.1 = k /\ e.1.2 = p) l es)
    as [Ht Hl]; [apply in_bucket_entry | apply in_bucket_skipped | done |].
  rewrite foldl_add_entry_bucket.
  destruct (filter _ es) as [|e b], (filter (in_bucket k p) l) as [|a c];
    try done.
  rewrite Ht. done.
Qed.

Lemma buy_price_nonzero (auc : auction) (bp : Z) :
  buy_price auc = Some bp -> bp <> 0.
Proof.
  unfold buy_price.
  destruct (present_nonzero (auc_buyout auc)) as [b|] eqn:Hb.
  - intros [= <-]. by apply present_nonzero_Some in Hb as [_ ?].
  - destruct (present_nonzero (auc_unit_price auc)) as [u|] eqn:Hu; [|done].
    intros [= <-]. by apply present_nonzero_Some in Hu as [_ ?].
Qed.

(** Every price key of a returned histogram is a finite, nonzero float. *)
Lemma parse_auctions_keys_finite (l : list auction) (m : parsed_t)
    (k : dict_key_t) (h : histogram) (p : float) (q : Z) :
  parse_auctions (PyList l) = Ok m -> m !! k = Some h -> h !! p = Some q ->
  exists s mant e, p = S754_finite s mant e.
Proof.
  intros Hm Hk Hp.
  assert (bucket m k p = Some q) as Hb by (unfold bucket; by rewrite Hk).
  rewrite (parse_auctions_bucket l m k p Hm) in Hb.
  destruct (filter (in_bucket k p) l) as [|auc b] eqn:Hf; [done|].
  assert (auc ∈ filter (in_bucket k p) l) as Hin
    by (rewrite Hf; apply elem_of_cons; by left).
  apply list_elem_of_filter in Hin as [[Hup _] _].
  unfold unit_price in Hup. destruct (buy_price auc) as [bp|] eqn:Hbp; [|done].
  injection Hup as Hdiv. unfold currency_scale in Hdiv.
  destruct (int_truediv_nonzero bp (buy_price_nonzero auc bp Hbp))
    as [Hov|(mant & e & Hfin)]; [congruence|].
  rewrite Hfin in Hdiv. injection Hdiv as <-. eauto.
Qed.

Lemma parse_auctions_no_empty (l : list auction) (m : parsed_t) :
  parse_auctions (PyList l) = Ok m -> no_empty_histogram m.
Proof.
  intros (es & Hes & ->)%parse_auctions_Ok.
  apply foldl_add_entry_no_empty. intros k h. by rewrite lookup_empty.
Qed.

(** On well-formed listings the call returns a mapping. *)
Lemma parse_auctions_total (l : list auction) :
  (forall auc, auc ∈ l -> usable_price auc -> well_formed auc) ->
  exists m, parse_auctions (PyList l) = Ok m.
Proof.
  intros Hwf.
  assert (exists es, entries_of l = Ok es) as [es Hes].
  { induction l as [|auc rest IH]; [by eexists|].
    destruct IH as [es Hes].
    { intros a Ha. apply Hwf, elem_of_cons. by right. }
    assert (exists o, entry_of auc = Ok o) as [o Ho].
    { unfold entry_of, unit_price.
      destruct (buy_price auc) as [bp|] eqn:Hbp; [|by eexists].
      destruct (Hwf auc) as ((it & id & Hit & Hid) & [q Hq] & Hrange).
      - apply elem_of_cons. by left.
      - apply buy_price_usable. by rewrite Hbp.
      - destruct (int_truediv_in_range bp (Hrange bp Hbp)) as [p Hp].
        unfold currency_scale. rewrite Hp. simpl.
        rewrite (dict_key_Ok auc it id Hit Hid). simpl.
        rewrite Hq. by eexists. }
    exists (option_list o ++ es). apply entries_of_cons. eauto. }
  exists (foldl add_entry ∅ es). apply parse_auctions_Ok. eauto.
Qed.

Lemma entries_of_app (l1 l2 : list auction) :
  entries_of (l1 ++ l2) = es1 ← entries_of l1; es2 ← entries_of l2; Ok (es1 ++ es2).
Proof.
  induction l1 as [|auc rest IH]; simpl.
  - by destruct (entries_of l2).
  - destruct (entry_of auc) as [o|e]; simpl; [|done]. rewrite IH.
    destruct (entries_of rest) as [es1|e]; simpl; [|done].
    destruct (entries_of l2) as [es2|e]; simpl; [|done].
    by rewrite app_assoc.
Qed.

(** A counted listing adds its quantity to the bucket of its key and price:
    the result is the result without the listing, with that one bucket
    raised by the quantity. *)
Lemma parse_auctions_priced (pre post : list auction) (auc : auction) (m : parsed_t) :
  usable_price auc ->
  parse_auctions (PyList (pre ++ auc :: post)) = Ok m ->
  exists k p q m0,
    unit_price auc = Some (Ok p) /\ dict_key auc = Ok k /\
    auc_quantity auc = Some q /\
    parse_auctions (PyList (pre ++ post)) = Ok m0 /\
    m = <[k := add_quantity (default ∅ (m0 !! k)) p q]> m0 /\
    bucket m k p = Some (default 0 (bucket m0 k p) + q).
Proof.
  intros Hus (es & Hes & ->)%parse_auctions_Ok.
  rewrite entries_of_app in Hes.
  destruct (entries_of pre) as [es1|] eqn:H1; [|done]. simpl in Hes.
  destruct (entry_of auc) as [o|] eqn:Ho; [|done]. simpl in Hes.
  destruct (entries_of post) as [es2|] eqn:H2; [|done]. simpl in Hes.
  injection Hes as <-.
  destruct o as [[[k p] q]|];
    [|by apply entry_of_None, unpriced_not_usable in Ho].
  apply entry_of_Some in Ho as (Hp & Hk & Hq).
  exists k, p, q, (foldl add_entry ∅ (es1 ++ es2)).
  do 3 (split; [done|]). split.
  { apply parse_auctions_Ok. exists (es1 ++ es2). split; [|done].
    by rewrite entries_of_app, H1, H2. }
  rewrite (foldl_add_entry_perm (es1 ++ option_list (Some (k, p, q)) ++ es2)
             ((es1 ++ es2) ++ [(k, p, q)]))
    by (simpl; rewrite <- Permutation_middle; apply Permutation_cons_append).
  rewrite foldl_app. simpl. generalize (foldl add_entry ∅ (es1 ++ es2)).
  intros m0. split; [done|].
  unfold add_entry, bucket. rewrite lookup_insert_eq. simpl.
  destruct (m0 !! k) as [h|]; simpl.
  - unfold add_quantity. destruct (h !! p) as [old|]; simpl;
      by rewrite lookup_insert_eq.
  - unfold add_quantity. rewrite lookup_empty. simpl. by rewrite lookup_insert_eq.
Qed.

(** ** Specified properties *)

(** C1. A listing with a nonzero buyout is priced at buyout / 10000;
    otherwise one with a nonzero per-unit price is priced at
    unit_price / 10000; otherwise the listing is skipped and leaves the
    result as it was.  The price so computed is the bucket the quantity is
    added to: in every returned mapping, a listing priced by [b] is counted
    under its key at the price [b / 10000], the mapping being the one
    returned without the listing with that bucket raised by the listing's
    quantity. *)
Theorem unit_price_rule (auc : auction) :
  (forall b, auc_buyout auc = Some b -> b <> 0 ->
     unit_price auc = Some (int_truediv b currency_scale)) /\
  (forall u, auc_buyout auc = None \/ auc_buyout auc = Some 0 ->
     auc_unit_price auc = Some u -> u <> 0 ->
     unit_price auc = Some (int_truediv u currency_scale)) /\
  (unpriced auc ->
     unit_price auc = None /\
     (forall m, loop_body m auc = Ok m) /\
     (forall pre post,
        parse_auctions (PyList (pre ++ auc :: post)) =
        parse_auctions (PyList (pre ++ post)))) /\
  (forall m m', usable_price auc -> loop_body m auc = Ok m' ->
     exists k p q,
       unit_price auc = Some (Ok p) /\ dict_key auc = Ok k /\
       auc_quantity auc = Some q /\
       m' = <[k := add_quantity (default ∅ (m !! k)) p q]> m) /\
  (forall pre post m b,
     (auc_buyout auc = Some b /\ b <> 0) \/
     ((auc_buyout auc = None \/ auc_buyout auc = Some 0) /\
      auc_unit_price auc = Some b /\ b <> 0) ->
     parse_auctions (PyList (pre ++ auc :: post)) = Ok m ->
     exists k p q m0,
       int_truediv b currency_scale = Ok p /\
       dict_key auc = Ok k /\ auc_quantity auc = Some q /\
       parse_auctions (PyList (pre ++ post)) = Ok m0 /\
       m = <[k := add_quantity (default ∅ (m0 !! k)) p q]> m0 /\
       bucket m k p = Some (default 0 (bucket m0 k p) + q)).
Proof.
  assert (forall b, auc_buyout auc = Some b -> b <> 0 ->
            unit_price auc = Some (int_truediv b currency_scale)) as Hbuyout.
  { intros b Hb Hnz. unfold unit_price, buy_price.
    assert (present_nonzero (auc_buyout auc) = Some b) as ->
      by (by apply present_nonzero_Some).
    done. }
  assert (forall u, auc_buyout auc = None \/ auc_buyout auc = Some 0 ->
            auc_unit_price auc = Some u -> u <> 0 ->
            unit_price auc = Some (int_truediv u currency_scale)) as Hunit.
  { intros u Hb Hu Hnz. unfold unit_price, buy_price.
    apply present_nonzero_None in Hb as ->.
    assert (present_nonzero (auc_unit_price auc) = Some u) as ->
      by (by apply present_nonzero_Some).
    done. }
  split; [done|]. split; [done|]. split; [|split].
  - intros Hu. split; [by apply unit_price_None|]. split.
    + intros m. by apply loop_body_skip.
    + intros pre post. by apply parse_auctions_skip.
  - intros m m' Hus Hbody. rewrite loop_body_entry in Hbody.
    destruct (entry_of auc) as [[[[k p] q]|]|ex] eqn:Ho; simpl in Hbody.
    + apply entry_of_Some in Ho as (Hp & Hk & Hq).
      injection Hbody as <-. by exists k, p, q.
    + apply entry_of_None, unpriced_not_usable in Ho. done.
    + done.
  - intros pre post m b Hprice Hm.
    assert (usable_price auc /\ unit_price auc = Some (int_truediv b currency_scale))
      as [Hus Hup].
    { destruct Hprice as [[Hb Hnz]|(Hb & Hu & Hnz)].
      - split; [left; eauto | by apply Hbuyout].
      - split; [right; eauto | by apply Hunit]. }
    destruct (parse_auctions_priced pre post auc m Hus Hm)
      as (k & p & q & m0 & Hp & Hk & Hq & Hm0 & Hins & Hbucket).
    exists k, p, q, m0. rewrite Hup in Hp. injection Hp as Hp. done.
Qed.

Lemma unit_price_rule_witness :
  unit_price (listing 100 (Some []) (Some 100000) None 1) = Some (Ok f10_0) /\
  unit_price (listing 100 (Some []) (Some 0) (Some 8000) 5) = Some (Ok f0_8) /\
  loop_body {[ [100] := {[ f10_0 := 1 ]} ]} (listing 100 (Some []) (Some 0) (Some 0) 3)
    = Ok {[ [100] := {[ f10_0 := 1 ]} ]} /\
  (exists k p q,
     unit_price (listing 100 (Some []) (Some 100000) None 1) = Some (Ok p) /\
     dict_key (listing 100 (Some []) (Some 100000) None 1) = Ok k /\
     auc_quantity (listing 100 (Some []) (Some 100000) None 1) = Some q /\
     ({[ [100] := {[ f10_0 := 1 ]} ]} : parsed_t) =
     <[k := add_quantity (default ∅ ((∅ : parsed_t) !! k)) p q]> ∅) /\
  (exists k p q m0,
     int_truediv 8000 currency_scale = Ok p /\
     dict_key (listing 100 (Some []) (Some 0) (Some 8000) 5) = Ok k /\
     auc_quantity (listing 100 (Some []) (Some 0) (Some 8000) 5) = Some q /\
     parse_auctions
       (PyList ([listing 100 (Some []) (Some 100000) None 1] ++
                [listing 100 (Some []) (Some 0) (Some 8000) 5;
                 listing 100 (Some []) (Some 0) (Some 0) 3])) = Ok m0 /\
     ({[ [100] := {[ f10_0 := 1; f0_8 := 10 ]} ]} : parsed_t) =
     <[k := add_quantity (default ∅ (m0 !! k)) p q]> m0 /\
     bucket {[ [100] := {[ f10_0 := 1; f0_8 := 10 ]} ]} k p
     = Some (default 0 (bucket m0 k p) + q)).
Proof.
  split; [|split; [|split; [|split]]].
  - apply (proj1 (unit_price_rule _) 100000); [reflexivity | lia].
  - apply (proj1 (proj2 (unit_price_rule _)) 8000);
      [right; reflexivity | reflexivity | lia].
  - apply (proj1 (proj2 (proj2 (unit_price_rule _)))).
    split; right; reflexivity.
  - apply (proj1 (proj2 (proj2 (proj2 (unit_price_rule _)))) ∅).
    + left. exists 100000. split; [reflexivity | lia].
    + by_compute.
  - apply (proj2 (proj2 (proj2 (proj2 (unit_price_rule _)))) _ _ _ 8000).
    + right. split; [by right|]. split; [reflexivity | lia].
    + by_compute.
Defined.

(** C3. The three listings of the scenario give the single variant
    [(100,)] with histogram [{10.0: 1, 0.8: 5}]; the third listing is
    dropped. *)
Theorem scenario_result :
  parse_auctions (PyList scenario) = Ok {[ [100] := {[ f10_0 := 1; f0_8 := 5 ]} ]} /\
  parse_auctions (PyList scenario) = parse_auctions (PyList (take 2 scenario)) /\
  unit_price (listing 100 (Some []) (Some 0) (Some 0) 3) = None.
Proof. repeat split; by_compute. Qed.

(** C10. A listing without usable price is skipped whatever its item and
    quantity fields are, present or not: it can be removed from the input
    without changing the outcome, and alone it gives the empty mapping. *)
Theorem unpriced_listing_never_fails
    (bo up : option Z) (it : option item_obj) (q : option Z)
    (pre post : list auction) :
  let auc := {| auc_buyout := bo; auc_unit_price := up;
                auc_item := it; auc_quantity := q |} in
  bo = None \/ bo = Some 0 ->
  up = None \/ up = Some 0 ->
  parse_auctions (PyList (pre ++ auc :: post)) = parse_auctions (PyList (pre ++ post)) /\
  parse_auctions (PyList [auc]) = Ok ∅.
Proof.
  intros auc Hbo Hup.
  assert (unpriced auc) as Hu by done.
  split.
  - by apply parse_auctions_skip.
  - apply (parse_auctions_skip [] [] auc Hu).
Qed.

Lemma unpriced_listing_never_fails_witness :
  parse_auctions (PyList (take 2 scenario ++
     {| auc_buyout := Some 0; auc_unit_price := None;
        auc_item := None; auc_quantity := None |} :: []))
  = parse_auctions (PyList (take 2 scenario ++ [])) /\
  parse_auctions (PyList
     [ {| auc_buyout := Some 0; auc_unit_price := None;
          auc_item := None; auc_quantity := None |} ]) = Ok ∅.
Proof.
  apply (unpriced_listing_never_fails (Some 0) None None None (take 2 scenario) []).
  - right. reflexivity.
  - left. reflexivity.
Defined.

(** C7, as the claim has it, fails: a listing without item id that has no
    usable price is skipped, and the call returns a mapping. *)
Lemma missing_id_unpriced_is_skipped :
  missing_item_id unpriced_bare /\
  ~ raises (parse_auctions (PyList [unpriced_bare])).
Proof. split; [reflexivity | vm_compute; tauto]. Qed.

(** C7, amended. A listing with a usable price and no item id makes the whole
    call raise, wherever it stands in the input; an argument that is not a
    list raises [TypeError]. *)
Theorem priced_missing_id_fails (l : list auction) (auc : auction) :
  (auc ∈ l -> usable_price auc -> missing_item_id auc ->
   raises (parse_auctions (PyList l))) /\
  parse_auctions PyNotList = Raise TypeError.
Proof.
  split; [|done]. intros Hin Hus Hmiss.
  apply (parse_auctions_raises l auc Hin).
  apply buy_price_usable, unit_price_is_Some in Hus as [division Hd].
  unfold entry_of. rewrite Hd. destruct division as [p|ex]; simpl; [|done].
  apply dict_key_missing in Hmiss. destruct (dict_key auc); done.
Qed.

Lemma priced_missing_id_fails_witness :
  raises (parse_auctions (PyList (scenario ++ [priced_no_id]))).
Proof.
  apply (proj1 (priced_missing_id_fails (scenario ++ [priced_no_id]) priced_no_id)).
  - apply elem_of_app. right. apply list_elem_of_singleton. reflexivity.
  - left. exists 50000. split; [reflexivity | lia].
  - reflexivity.
Defined.

(** C8. On the empty list the aggregator returns the empty mapping; the loop
    of [main] then never calls the estimator and appends no summary. *)
Theorem empty_input_no_summary {V : Type} (str : V -> string)
    (marketvalue : histogram -> pyresult (gmap string V)) :
  parse_auctions (PyList []) = Ok ∅ /\
  main_marketvalues str marketvalue (PyList []) = ([], Ok []).
Proof.
  split; reflexivity.
Qed.

(** C2. In the mapping returned for any list of listings, the quantities of
    a variant's histogram add up to the quantities of the non-skipped
    listings of that variant; every bucket holds the quantities of exactly
    the listings with that key and price; every non-skipped listing falls
    in one bucket only, which exists; and no variant has an empty histogram,
    so that skipped listings leave no entry behind. *)
Theorem aggregation_totals (l : list auction) (m : parsed_t) :
  parse_auctions (PyList l) = Ok m ->
  (forall k h, m !! k = Some h ->
     h <> ∅ /\
     filter (in_variant k) l <> [] /\
     hist_total h = quantity_sum (filter (in_variant k) l)) /\
  (forall k p,
     bucket m k p =
     match filter (in_bucket k p) l with
     | [] => None
     | b => Some (quantity_sum b)
     end) /\
  (forall auc, auc ∈ l -> usable_price auc ->
     exists k p,
       in_bucket k p auc /\
       (forall k' p', in_bucket k' p' auc -> k' = k /\ p' = p) /\
       is_Some (bucket m k p)).
Proof.
  intros Hm. split; [|split].
  - intros k h Hk.
    destruct (parse_auctions_variant l m k Hm) as [Hdom Htot].
    rewrite Hk in Htot. simpl in Htot. split; [|split].
    + by apply (parse_auctions_no_empty l m Hm k).
    + apply Hdom. eauto.
    + done.
  - intros k p. by apply parse_auctions_bucket.
  - intros auc Hin Hus.
    pose proof Hm as (es & Hes & _)%parse_auctions_Ok.
    destruct (entries_of_elem l es auc Hes Hin) as [[[[k p] q]|] Ho].
    + assert (in_bucket k p auc) as Hb by (by apply (in_bucket_entry k p auc _ Ho)).
      exists k, p. split; [done|]. split.
      * intros k' p' Hb'. destruct Hb as [Hp Hk], Hb' as [Hp' Hk']. split; congruence.
      * rewrite (parse_auctions_bucket l m k p Hm).
        assert (auc ∈ filter (in_bucket k p) l) as Hf
          by (by apply list_elem_of_filter).
        destruct (filter (in_bucket k p) l); [by apply elem_of_nil in Hf | eauto].
    + apply entry_of_None, unpriced_not_usable in Ho. done.
Qed.

Lemma aggregation_totals_witness :
  (forall k h,
     ({[ [100] := {[ f10_0 := 1; f0_8 := 5 ]} ]} : parsed_t) !! k = Some h ->
     h <> ∅ /\
     filter (in_variant k) scenario <> [] /\
     hist_total h = quantity_sum (filter (in_variant k) scenario)) /\
  (forall k p,
     bucket {[ [100] := {[ f10_0 := 1; f0_8 := 5 ]} ]} k p =
     match filter (in_bucket k p) scenario with
     | [] => None
     | b => Some (quantity_sum b)
     end) /\
  (forall auc, auc ∈ scenario -> usable_price auc ->
     exists k p,
       in_bucket k p auc /\
       (forall k' p', in_bucket k' p' auc -> k' = k /\ p' = p) /\
       is_Some (bucket {[ [100] := {[ f10_0 := 1; f0_8 := 5 ]} ]} k p)).
Proof.
  apply (aggregation_totals scenario). by_compute.
Defined.

(** C5. Reordering the input does not change the outcome: the call on a
    permutation of the list returns a mapping exactly when the call on the
    list does, and it is the same mapping. *)
Theorem aggregation_order_independent (l l' : list auction) :
  l ≡ₚ l' ->
  forall m, parse_auctions (PyList l) = Ok m <-> parse_auctions (PyList l') = Ok m.
Proof.
  assert (forall l1 l2 m, l1 ≡ₚ l2 ->
            parse_auctions (PyList l1) = Ok m -> parse_auctions (PyList l2) = Ok m)
    as Hdir.
  { intros l1 l2 m Hp (es & Hes & ->)%parse_auctions_Ok.
    destruct (entries_of_perm l1 l2 Hp es Hes) as (es' & Hes' & Hpe).
    apply parse_auctions_Ok. exists es'. split; [done|].
    by apply foldl_add_entry_perm. }
  intros Hp m. split; apply Hdir; [done | by symmetry].
Qed.

Lemma aggregation_order_independent_witness :
  parse_auctions (PyList scenario) = Ok {[ [100] := {[ f10_0 := 1; f0_8 := 5 ]} ]} <->
  parse_auctions (PyList (rev scenario)) = Ok {[ [100] := {[ f10_0 := 1; f0_8 := 5 ]} ]}.
Proof.
  apply (aggregation_order_independent scenario (rev scenario)).
  apply Permutation_rev.
Defined.

(** C6. When every quantity in the input is at least 1, every quantity
    stored in a returned histogram is at least 1, and the price keys of a
    histogram are pairwise distinct. *)
Theorem stored_quantities_positive (l : list auction) (m : parsed_t) :
  (forall auc q, auc ∈ l -> auc_quantity auc = Some q -> 1 <= q) ->
  parse_auctions (PyList l) = Ok m ->
  forall k h, m !! k = Some h ->
    (forall p q, h !! p = Some q -> 1 <= q) /\
    NoDup (map_to_list h).*1.
Proof.
  intros Hpos Hm k h Hk. split; [|apply NoDup_fst_map_to_list].
  intros p q Hq.
  assert (bucket m k p = Some q) as Hb by (unfold bucket; by rewrite Hk).
  rewrite (parse_auctions_bucket l m k p Hm) in Hb.
  assert (forall b : list auction, (forall auc, auc ∈ b -> auc ∈ l /\ in_bucket k p auc) ->
            b <> [] -> 1 <= quantity_sum b) as Hsum.
  { pose proof Hm as (es & Hes & _)%parse_auctions_Ok.
    induction b as [|auc b IH]; intros Hb' Hne; [done|]. simpl.
    destruct (Hb' auc) as [Hin [Hp _]]; [apply elem_of_cons; by left|].
    destruct (entries_of_elem l es auc Hes Hin) as [[[[k' p'] q']|] Ho].
    - apply entry_of_Some in Ho as (_ & _ & Hq').
      rewrite Hq'. simpl. specialize (Hpos auc q' Hin Hq').
      destruct b as [|auc' b']; [simpl; lia|].
      assert (1 <= quantity_sum (auc' :: b')); [|lia].
      apply IH; [|done]. intros a Ha. apply Hb', elem_of_cons. by right.
    - apply entry_of_None, unit_price_None in Ho. congruence. }
  destruct (filter (in_bucket k p) l) as [|auc b] eqn:Hf; [done|].
  injection Hb as <-. apply (Hsum (auc :: b)); [|done].
  intros a Ha. rewrite <- Hf in Ha. apply list_elem_of_filter in Ha. tauto.
Qed.

Lemma stored_quantities_positive_witness :
  (forall p q, ({[ f10_0 := 1; f0_8 := 5 ]} : histogram) !! p = Some q -> 1 <= q) /\
  NoDup (map_to_list ({[ f10_0 := 1; f0_8 := 5 ]} : histogram)).*1.
Proof.
  apply (stored_quantities_positive scenario
           {[ [100] := {[ f10_0 := 1; f0_8 := 5 ]} ]} ) with (k := [100]).
  - intros auc q Hin Hq. unfold scenario in Hin.
    repeat (apply elem_of_cons in Hin as [->|Hin];
            [injection Hq as <-; lia|]).
    by apply elem_of_nil in Hin.
  - by_compute.
  - by_compute.
Defined.

(** C4. Two listings of the same item get the same variant key when their
    bonus-id lists are equal as ordered lists, and different keys otherwise
    (also when the lists differ by order only).  In any returned mapping
    both keys are present; with different keys, the histogram of each
    variant sums listings among which the other listing is not. *)
Theorem variant_key_by_ordered_bonus (a1 a2 : auction) (i1 i2 : item_obj) (id : Z) :
  auc_item a1 = Some i1 -> item_id i1 = Some id ->
  auc_item a2 = Some i2 -> item_id i2 = Some id ->
  let k1 := id :: bonus_ids a1 in
  let k2 := id :: bonus_ids a2 in
  dict_key a1 = Ok k1 /\ dict_key a2 = Ok k2 /\
  (bonus_ids a1 = bonus_ids a2 -> k1 = k2) /\
  (bonus_ids a1 <> bonus_ids a2 -> k1 <> k2) /\
  (forall l m,
     a1 ∈ l -> a2 ∈ l -> usable_price a1 -> usable_price a2 ->
     parse_auctions (PyList l) = Ok m ->
     exists h1 h2,
       m !! k1 = Some h1 /\ m !! k2 = Some h2 /\
       hist_total h1 = quantity_sum (filter (in_variant k1) l) /\
       hist_total h2 = quantity_sum (filter (in_variant k2) l) /\
       a1 ∈ filter (in_variant k1) l /\ a2 ∈ filter (in_variant k2) l /\
       (bonus_ids a1 <> bonus_ids a2 ->
          (a2 ∉ filter (in_variant k1) l) /\ (a1 ∉ filter (in_variant k2) l))).
Proof.
  intros Hi1 Hid1 Hi2 Hid2 k1 k2.
  pose proof (dict_key_Ok a1 i1 id Hi1 Hid1) as Hk1.
  pose proof (dict_key_Ok a2 i2 id Hi2 Hid2) as Hk2.
  split; [done|]. split; [done|]. split; [|split].
  - intros Heq. unfold k1, k2. by rewrite Heq.
  - intros Hne [= Heq]. done.
  - intros l m Hin1 Hin2 Hus1 Hus2 Hm.
    assert (a1 ∈ filter (in_variant k1) l) as Hf1.
    { apply list_elem_of_filter. split; [|done]. split; [|done].
      by apply buy_price_usable. }
    assert (a2 ∈ filter (in_variant k2) l) as Hf2.
    { apply list_elem_of_filter. split; [|done]. split; [|done].
      by apply buy_price_usable. }
    destruct (parse_auctions_variant l m k1 Hm) as [Hdom1 Htot1].
    destruct (parse_auctions_variant l m k2 Hm) as [Hdom2 Htot2].
    destruct (proj2 Hdom1) as [h1 Hh1].
    { intros Hnil. rewrite Hnil in Hf1. by apply elem_of_nil in Hf1. }
    destruct (proj2 Hdom2) as [h2 Hh2].
    { intros Hnil. rewrite Hnil in Hf2. by apply elem_of_nil in Hf2. }
    rewrite Hh1 in Htot1. rewrite Hh2 in Htot2. simpl in Htot1, Htot2.
    exists h1, h2. repeat (split; [done|]).
    intros Hne. split.
    + intros [[_ Hk] _]%list_elem_of_filter. rewrite Hk2 in Hk.
      injection Hk as Heq. done.
    + intros [[_ Hk] _]%list_elem_of_filter. rewrite Hk1 in Hk.
      injection Hk as Heq. done.
Qed.

Lemma variant_key_by_ordered_bonus_witness :
  dict_key bonus_12 = Ok [7; 1; 2] /\ dict_key bonus_21 = Ok [7; 2; 1] /\
  (bonus_ids bonus_12 = bonus_ids bonus_21 -> [7; 1; 2] = [7; 2; 1]) /\
  (bonus_ids bonus_12 <> bonus_ids bonus_21 -> [7; 1; 2] <> [7; 2; 1]) /\
  (forall l m,
     bonus_12 ∈ l -> bonus_21 ∈ l -> usable_price bonus_12 -> usable_price bonus_21 ->
     parse_auctions (PyList l) = Ok m ->
     exists h1 h2,
       m !! [7; 1; 2] = Some h1 /\ m !! [7; 2; 1] = Some h2 /\
       hist_total h1 = quantity_sum (filter (in_variant [7; 1; 2]) l) /\
       hist_total h2 = quantity_sum (filter (in_variant [7; 2; 1]) l) /\
       bonus_12 ∈ filter (in_variant [7; 1; 2]) l /\
       bonus_21 ∈ filter (in_variant [7; 2; 1]) l /\
       (bonus_ids bonus_12 <> bonus_ids bonus_21 ->
          (bonus_21 ∉ filter (in_variant [7; 1; 2]) l) /\
          (bonus_12 ∉ filter (in_variant [7; 2; 1]) l))).
Proof.
  apply (variant_key_by_ordered_bonus bonus_12 bonus_21
           {| item_id := Some 7; item_bonus_lists := Some [1; 2] |}
           {| item_id := Some 7; item_bonus_lists := Some [2; 1] |} 7);
    reflexivity.
Defined.

Example bonus_order_not_merged :
  parse_auctions (PyList [ bonus_12; bonus_21;
                           listing 7 (Some [1; 2]) None (Some 30000) 2 ])
  = Ok {[ [7; 1; 2] := {[ S754_finite false 6755399441055744 (-51) := 3 ]};
          [7; 2; 1] := {[ S754_finite false 6755399441055744 (-51) := 4 ]} ]}.
Proof. by_compute. Qed.

(** ** The market-value loop, beyond the empty input *)

Section MainLoop.

Context {V : Type}.
Variable str : V -> string.
Variable marketvalue : histogram -> pyresult (gmap string V).

Lemma mv_loop_calls (items : list (dict_key_t * histogram))
    (calls : list histogram) (marketvalues : list mv_entry) :
  exists n,
    (n <= length items)%nat /\
    (mv_loop str marketvalue calls marketvalues items).1 = calls ++ (take n items).*2 /\
    (forall r, (mv_loop str marketvalue calls marketvalues items).2 = Ok r ->
               n = length items).
Proof.
  revert calls marketvalues.
  induction items as [|[k h] rest IH]; intros calls marketvalues; simpl.
  - exists 0%nat. rewrite app_nil_r. done.
  - destruct (marketvalue_data ← marketvalue h; _) as [mvs'|e] eqn:Hbody.
    + destruct (IH (calls ++ [h]) mvs') as (n & Hn & Hc & Hr).
      exists (S n). simpl. rewrite Hc, <- app_assoc. simpl.
      split; [lia|]. split; [done|]. intros r Hok. by rewrite (Hr r Hok).
    + exists 1%nat. simpl. split; [lia|]. done.
Qed.

Lemma mv_loop_all_ok (items : list (dict_key_t * histogram))
    (calls : list histogram) (marketvalues : list mv_entry) :
  (forall k h, (k, h) ∈ items ->
     k <> [] /\
     exists d mv qt mn,
       marketvalue h = Ok d /\
       d !! "marketvalue" = Some mv /\ d !! "quantity" = Some qt /\
       d !! "MIN" = Some mn) ->
  exists new,
    mv_loop str marketvalue calls marketvalues items
      = (calls ++ items.*2, Ok (marketvalues ++ new)) /\
    Forall2 (fun kh e => summary_ok str marketvalue kh.1 kh.2 e) items new.
Proof.
  revert calls marketvalues.
  induction items as [|[k h] rest IH]; intros calls marketvalues Hall.
  - exists []. simpl. rewrite !app_nil_r. split; [done | constructor].
  - destruct (Hall k h) as (Hk & d & mv & qt & mn & Hd & Hmv & Hqt & Hmn);
      [apply elem_of_cons; by left|].
    destruct k as [|id bonus]; [done|].
    destruct (IH (calls ++ [h])
                (marketvalues ++
                 [ {| mv_item := id; mv_bonusIds := bonus;
                      mv_marketvalue := str mv; mv_quantity := str qt;
                      mv_MIN := str mn |} ])) as (new & Hloop & Hnew).
    { intros k' h' Hin. apply Hall, elem_of_cons. by right. }
    eexists (_ :: new). split.
    + simpl. rewrite Hd. simpl. rewrite Hmv, Hqt, Hmn. simpl.
      rewrite Hloop, <- !app_assoc. done.
    + constructor; [|done]. split; [done|]. by exists d, mv, qt, mn.
Qed.

Lemma mv_loop_raises (items : list (dict_key_t * histogram))
    (calls : list histogram) (marketvalues : list mv_entry)
    (k : dict_key_t) (h : histogram) :
  (k, h) ∈ items -> raises (marketvalue h) ->
  raises (mv_loop str marketvalue calls marketvalues items).2.
Proof.
  revert calls marketvalues.
  induction items as [|[k' h'] rest IH]; intros calls marketvalues Hin Hr.
  - by apply elem_of_nil in Hin.
  - simpl. destruct (marketvalue_data ← marketvalue h'; _) as [mvs'|e] eqn:Hbody;
      [|done].
    apply elem_of_cons in Hin as [[= <- <-]|Hin].
    + destruct (marketvalue h); simpl in *; done.
    + by apply IH.
Qed.

Lemma mv_loop_length (items : list (dict_key_t * histogram))
    (calls : list histogram) (marketvalues r : list mv_entry) :
  (mv_loop str marketvalue calls marketvalues items).2 = Ok r ->
  length r = (length marketvalues + length items)%nat.
Proof.
  revert calls marketvalues.
  induction items as [|[k h] rest IH]; intros calls mvs; simpl.
  - intros [= <-]. lia.
  - destruct (marketvalue_data ← marketvalue h; _) as [mvs'|e] eqn:Hbody; [|done].
    intros Hok. rewrite (IH _ _ Hok).
    destruct (marketvalue h) as [d|]; [|done]. simpl in Hbody.
    destruct k as [|id bonus]; [done|]. simpl in Hbody.
    destruct (d !! "marketvalue") as [a|]; [|done]. simpl in Hbody.
    destruct (d !! "quantity") as [b|]; [|done]. simpl in Hbody.
    destruct (d !! "MIN") as [c|]; [|done]. simpl in Hbody.
    injection Hbody as <-. rewrite length_app. simpl. lia.
Qed.

End MainLoop.

(** ** The returned dict with its order *)

Lemma loop_body_ordered_map (d : pydict dict_key_t histogram) (auc : auction) :
  loop_body (pd_map d) auc =
  match loop_body_ordered d auc with Ok d' => Ok (pd_map d') | Raise e => Raise e end.
Proof.
  unfold loop_body, loop_body_ordered.
  destruct (unit_price auc) as [[up|e]|]; try done. simpl.
  destruct (dict_key auc) as [key|e]; try done. simpl.
  destruct (auc_quantity auc) as [q|]; done.
Qed.

Lemma loop_ordered_map (l : list auction) (d : pydict dict_key_t histogram) :
  loop (pd_map d) l =
  match loop_ordered d l with Ok d' => Ok (pd_map d') | Raise e => Raise e end.
Proof.
  revert d. induction l as [|auc rest IH]; intros d; simpl; [done|].
  rewrite loop_body_ordered_map.
  destruct (loop_body_ordered d auc) as [d1|e]; simpl; [|done]. apply IH.
Qed.

Lemma parse_auctions_ordered_map (auctions : pyarg) :
  parse_auctions auctions =
  match parse_auctions_ordered auctions with
  | Ok d => Ok (pd_map d)
  | Raise e => Raise e
  end.
Proof.
  destruct auctions as [l|]; [|done]. simpl.
  apply (loop_ordered_map l {| pd_keys := []; pd_map := ∅ |}).
Qed.

Lemma loop_body_ordered_inv (d d' : pydict dict_key_t histogram) (auc : auction) :
  loop_body_ordered d auc = Ok d' ->
  (variant_of auc = None /\ d' = d) \/
  (exists key h,
     variant_of auc = Some key /\
     pd_map d' = <[key := h]> (pd_map d) /\
     pd_keys d' = if bool_decide (is_Some (pd_map d !! key))
                  then pd_keys d else pd_keys d ++ [key]).
Proof.
  unfold loop_body_ordered, variant_of, unit_price.
  destruct (buy_price auc) as [bp|]; [|intros [= <-]; by left].
  destruct (int_truediv bp currency_scale) as [up|]; [|done]. simpl.
  destruct (dict_key auc) as [key|]; [|done]. simpl.
  destruct (auc_quantity auc) as [q|]; [|done]. simpl.
  intros [= <-]. right. by eexists key, _.
Qed.

Lemma loop_body_ordered_wf (d d' : pydict dict_key_t histogram) (auc : auction) :
  pydict_wf d -> loop_body_ordered d auc = Ok d' -> pydict_wf d'.
Proof.
  intros [Hnd Hdom] [[_ ->]|(key & h & _ & Hmap & Hkeys)]%loop_body_ordered_inv;
    [done|].
  unfold pydict_wf. rewrite Hmap, Hkeys. case_bool_decide as Hin.
  - split; [done|]. intros k. rewrite Hdom.
    destruct (decide (key = k)) as [<-|Hne].
    + rewrite lookup_insert_eq. split; eauto.
    + by rewrite lookup_insert_ne.
  - split.
    + apply NoDup_app. split; [done|]. split; [|apply NoDup_singleton].
      intros k Hk ->%list_elem_of_singleton. by apply Hin, Hdom.
    + intros k. rewrite elem_of_app, list_elem_of_singleton, Hdom.
      destruct (decide (key = k)) as [<-|Hne].
      * rewrite lookup_insert_eq. split; eauto.
      * rewrite lookup_insert_ne by done. naive_solver.
Qed.

Lemma loop_ordered_wf (l : list auction) (d d' : pydict dict_key_t histogram) :
  pydict_wf d -> loop_ordered d l = Ok d' -> pydict_wf d'.
Proof.
  revert d. induction l as [|auc rest IH]; intros d Hwf; simpl.
  - by intros [= <-].
  - destruct (loop_body_ordered d auc) as [d1|] eqn:Hbody; [|done]. simpl.
    apply IH. by apply (loop_body_ordered_wf d d1 auc).
Qed.

Lemma parse_auctions_ordered_wf (auctions : pyarg) (d : pydict dict_key_t histogram) :
  parse_auctions_ordered auctions = Ok d -> pydict_wf d.
Proof.
  destruct auctions as [l|]; [|done]. simpl.
  apply loop_ordered_wf. split; [constructor|].
  intros k. simpl. rewrite lookup_empty.
  split; [by intros ?%elem_of_nil | by intros [? ?]].
Qed.

(** The keys are in the order in which the variants first appear among the
    counted listings. *)
Lemma loop_ordered_keys (l : list auction) (d d' : pydict dict_key_t histogram) :
  pydict_wf d -> loop_ordered d l = Ok d' ->
  pd_keys d' =
  pd_keys d ++ filter (fun k => k ∉ pd_keys d) (first_occurrences (omap variant_of l)).
Proof.
  revert d. induction l as [|auc rest IH]; intros d Hwf; simpl.
  - intros [= <-]. by rewrite app_nil_r.
  - destruct (loop_body_ordered d auc) as [d1|] eqn:Hbody; [|done]. simpl.
    intros Hloop.
    rewrite (IH d1 (loop_body_ordered_wf d d1 auc Hwf Hbody) Hloop).
    apply loop_body_ordered_inv in Hbody
      as [[-> ->]|(key & h & -> & Hmap & Hkeys)]; [done|].
    simpl. rewrite Hkeys. destruct Hwf as [_ Hdom]. case_bool_decide as Hin.
    + apply Hdom in Hin. rewrite filter_cons_False by (by intros ?).
      f_equal. rewrite list_filter_filter. apply list_filter_iff.
      intros k. split; [|tauto]. intros Hk. split; [done|]. by intros ->.
    + rewrite <- Hdom in Hin. rewrite filter_cons_True by done.
      rewrite <- app_assoc. simpl. do 2 f_equal.
      rewrite list_filter_filter. apply list_filter_iff.
      intros k. rewrite not_elem_of_app, list_elem_of_singleton. tauto.
Qed.

Lemma dict_items_spec {K : Type} `{Countable K} {V : Type} (d : pydict K V) :
  pydict_wf d ->
  (dict_items d).*1 = pd_keys d /\
  (forall k v, (k, v) ∈ dict_items d <-> pd_map d !! k = Some v) /\
  length (dict_items d) = size (pd_map d).
Proof.
  intros [Hnd Hdom]. unfold dict_items.
  assert (forall ks : list K, (forall k, k ∈ ks -> is_Some (pd_map d !! k)) ->
            (omap (fun k => pair k <$> pd_map d !! k) ks).*1 = ks) as Hfst.
  { induction ks as [|k ks IH]; intros Hks; [done|]. simpl.
    destruct (Hks k) as [v ->]; [apply elem_of_cons; by left|]. simpl.
    f_equal. apply IH. intros k' Hk'. apply Hks, elem_of_cons. by right. }
  assert ((omap (fun k => pair k <$> pd_map d !! k) (pd_keys d)).*1 = pd_keys d)
    as Hkeys by (apply Hfst; intros k; apply Hdom).
  split; [done|]. split.
  - intros k v. rewrite list_elem_of_omap. split.
    + intros (k' & _ & Hk'). destruct (pd_map d !! k') as [v'|] eqn:Hv; [|done].
      simpl in Hk'. by injection Hk' as <- <-.
    + intros Hv. exists k. split; [apply Hdom; eauto|]. by rewrite Hv.
  - rewrite <- (length_fmap fst), Hkeys, <- size_dom.
    rewrite <- (size_list_to_set (C := gset K)) by done. f_equal.
    apply set_eq. intros k. by rewrite elem_of_dom, elem_of_list_to_set, Hdom.
Qed.

Lemma parse_auctions_ordered_keys (l : list auction)
    (d : pydict dict_key_t histogram) :
  parse_auctions_ordered (PyList l) = Ok d ->
  pd_keys d = first_occurrences (omap variant_of l).
Proof.
  simpl. intros Hloop. apply loop_ordered_keys in Hloop.
  - rewrite Hloop. simpl. generalize (first_occurrences (omap variant_of l)).
    induction l0 as [|k ks IH]; [done|].
    rewrite filter_cons_True by (by intros ?%elem_of_nil). by rewrite IH.
  - split; [constructor|]. intros k. simpl. rewrite lookup_empty.
    split; [by intros ?%elem_of_nil | by intros [? ?]].
Qed.

(** The items the loop of [main] goes through: the variants in the order of
    their first counted listing, each with its histogram. *)
Lemma main_marketvalues_items {V : Type} (str : V -> string)
    (marketvalue : histogram -> pyresult (gmap string V))
    (l : list auction) (m : parsed_t) :
  parse_auctions (PyList l) = Ok m ->
  exists items,
    main_marketvalues str marketvalue (PyList l) = mv_loop str marketvalue [] [] items /\
    items.*1 = first_occurrences (omap variant_of l) /\
    (forall k h, (k, h) ∈ items <-> m !! k = Some h) /\
    length items = size m.
Proof.
  intros Hm. rewrite parse_auctions_ordered_map in Hm. unfold main_marketvalues.
  destruct (parse_auctions_ordered (PyList l)) as [d|] eqn:Hd; [|done].
  injection Hm as <-.
  destruct (dict_items_spec d (parse_auctions_ordered_wf _ d Hd))
    as (Hkeys & Hitems & Hlen).
  exists (dict_items d). split; [done|].
  by rewrite Hkeys, (parse_auctions_ordered_keys l d Hd).
Qed.

Lemma parse_auctions_key_source (l : list auction) (m : parsed_t) (k : dict_key_t) :
  parse_auctions (PyList l) = Ok m -> is_Some (m !! k) ->
  exists auc, auc ∈ l /\ in_variant k auc.
Proof.
  intros Hm Hk. apply (parse_auctions_variant l m k Hm) in Hk.
  destruct (filter (in_variant k) l) as [|auc b] eqn:Hf; [done|].
  assert (auc ∈ filter (in_variant k) l) as Hin
    by (rewrite Hf; apply elem_of_cons; by left).
  apply list_elem_of_filter in Hin as [Hv Hin]. eauto.
Qed.

(** X1. A non-list argument makes the loop of [main] pass the [TypeError]
    on without calling the estimator, and so does any other exception of
    parsing.  When parsing returns a mapping, the loop goes through its
    items in insertion order: the variants in the order of their first
    counted listing, each with its histogram.  The estimator is called on
    the histograms of a prefix of these items, in that order, each variant
    at most once and never on an empty histogram; when the loop returns,
    every variant was visited and one summary per variant is returned. *)
Theorem estimator_calls_are_variant_histograms {V : Type} (str : V -> string)
    (marketvalue : histogram -> pyresult (gmap string V)) (l : list auction) :
  main_marketvalues str marketvalue PyNotList = ([], Raise TypeError) /\
  match parse_auctions (PyList l) with
  | Raise e => main_marketvalues str marketvalue (PyList l) = ([], Raise e)
  | Ok m =>
      exists items n,
        items.*1 = first_occurrences (omap variant_of l) /\
        (forall k h, (k, h) ∈ items <-> m !! k = Some h) /\
        length items = size m /\
        (n <= size m)%nat /\
        (main_marketvalues str marketvalue (PyList l)).1 = take n items.*2 /\
        Forall (fun h => h <> ∅) (main_marketvalues str marketvalue (PyList l)).1 /\
        (forall r, (main_marketvalues str marketvalue (PyList l)).2 = Ok r ->
                   n = size m /\ length r = size m)
  end.
Proof.
  split; [done|].
  destruct (parse_auctions (PyList l)) as [m|e] eqn:Hm.
  - destruct (main_marketvalues_items str marketvalue l m Hm)
      as (items & -> & Hkeys & Hitems & Hlen).
    destruct (mv_loop_calls str marketvalue items [] []) as (n & Hn & Hc & Hr).
    simpl in Hc. rewrite Hlen in Hn, Hr.
    exists items, n. do 4 (split; [done|]). rewrite Hc, <- fmap_take.
    split; [done|]. split.
    + apply list.Forall_forall. intros h [[k h'] [-> Hin]]%list_elem_of_fmap.
      apply elem_of_take in Hin as (i & Hi & _).
      apply list_elem_of_lookup_2, Hitems in Hi.
      by apply (parse_auctions_no_empty l m Hm k).
    + intros r Hok. split; [by apply (Hr r)|].
      rewrite (mv_loop_length str marketvalue items [] [] r Hok). simpl. done.
  - rewrite parse_auctions_ordered_map in Hm. unfold main_marketvalues.
    destruct (parse_auctions_ordered (PyList l)) as [d|e']; [done|].
    by injection Hm as ->.
Qed.

(** The two variants of item 7 are visited in the order of their listings,
    not in the order of their keys. *)
Example estimator_calls_insertion_order :
  main_marketvalues (fun n : Z => pretty n)
    (fun h => Ok {[ "marketvalue" := 1; "quantity" := hist_total h; "MIN" := 0 ]})
    (PyList [bonus_21; bonus_12])
  = ([ {[ S754_finite false 6755399441055744 (-51) := 4 ]};
       {[ S754_finite false 6755399441055744 (-51) := 1 ]} ],
     Ok [ {| mv_item := 7; mv_bonusIds := [2; 1]; mv_marketvalue := "1";
             mv_quantity := "4"; mv_MIN := "0" |};
          {| mv_item := 7; mv_bonusIds := [1; 2]; mv_marketvalue := "1";
             mv_quantity := "1"; mv_MIN := "0" |} ]) /\
  main_marketvalues (fun n : Z => pretty n)
    (fun h => Ok {[ "marketvalue" := 1; "quantity" := hist_total h; "MIN" := 0 ]})
    (PyList [bonus_12; bonus_21])
  = ([ {[ S754_finite false 6755399441055744 (-51) := 1 ]};
       {[ S754_finite false 6755399441055744 (-51) := 4 ]} ],
     Ok [ {| mv_item := 7; mv_bonusIds := [1; 2]; mv_marketvalue := "1";
             mv_quantity := "1"; mv_MIN := "0" |};
          {| mv_item := 7; mv_bonusIds := [2; 1]; mv_marketvalue := "1";
             mv_quantity := "4"; mv_MIN := "0" |} ]).
Proof. split; by_compute. Qed.

(** An estimator that fails on the second variant has been called on the
    first one before. *)
Example estimator_failure_after_first_variant :
  main_marketvalues (fun n : Z => pretty n)
    (fun h => if bool_decide (hist_total h = 4) then Raise (KeyError "MIN")
              else Ok {[ "marketvalue" := 1; "quantity" := hist_total h; "MIN" := 0 ]})
    (PyList [bonus_12; bonus_21])
  = ([ {[ S754_finite false 6755399441055744 (-51) := 1 ]};
       {[ S754_finite false 6755399441055744 (-51) := 4 ]} ],
     Raise (KeyError "MIN")).
Proof. by_compute. Qed.

(** X4. Every key of a returned mapping is the item id of some priced
    listing of the input followed by that listing's bonus ids; in
    particular no key is the empty tuple. *)
Theorem result_keys_from_priced_listings (l : list auction) (m : parsed_t)
    (k : dict_key_t) (h : histogram) :
  parse_auctions (PyList l) = Ok m -> m !! k = Some h ->
  exists auc it id,
    auc ∈ l /\ usable_price auc /\
    auc_item auc = Some it /\ item_id it = Some id /\
    k = id :: bonus_ids auc.
Proof.
  intros Hm Hk.
  destruct (parse_auctions_key_source l m k Hm) as (auc & Hin & Hb & Hkey); [eauto|].
  apply dict_key_inv in Hkey as (it & id & Hit & Hid & ->).
  exists auc, it, id. rewrite <- buy_price_usable. done.
Qed.

Lemma result_keys_from_priced_listings_witness :
  exists auc it id,
    auc ∈ scenario /\ usable_price auc /\
    auc_item auc = Some it /\ item_id it = Some id /\
    [100] = id :: bonus_ids auc.
Proof.
  apply (result_keys_from_priced_listings scenario
           {[ [100] := {[ f10_0 := 1; f0_8 := 5 ]} ]} [100]
           {[ f10_0 := 1; f0_8 := 5 ]}); by_compute.
Defined.

(** X2. When parsing returns a mapping and the estimator returns, for each
    of its histograms, a dict with the fields marketvalue, quantity and
    MIN, the loop of [main] calls the estimator once per variant and returns
    one summary per variant, both in insertion order, that is in the order
    in which the variants first appear among the counted listings: the
    variant key split into item id and bonus ids, and the three fields
    printed.  No [IndexError] can arise from [item_ids[0]]. *)
Theorem one_summary_per_variant {V : Type} (str : V -> string)
    (marketvalue : histogram -> pyresult (gmap string V))
    (l : list auction) (m : parsed_t) :
  parse_auctions (PyList l) = Ok m ->
  (forall k h, m !! k = Some h ->
     exists d mv qt mn,
       marketvalue h = Ok d /\
       d !! "marketvalue" = Some mv /\ d !! "quantity" = Some qt /\
       d !! "MIN" = Some mn) ->
  exists items marketvalues,
    items.*1 = first_occurrences (omap variant_of l) /\
    (forall k h, (k, h) ∈ items <-> m !! k = Some h) /\
    main_marketvalues str marketvalue (PyList l) = (items.*2, Ok marketvalues) /\
    Forall2 (fun kh e => summary_ok str marketvalue kh.1 kh.2 e) items marketvalues.
Proof.
  intros Hm Hest.
  destruct (main_marketvalues_items str marketvalue l m Hm)
    as (items & -> & Hkeys & Hitems & _).
  destruct (mv_loop_all_ok str marketvalue items [] []) as (new & Hloop & Hnew).
  - intros k h Hin%Hitems. split; [|by apply (Hest k h)].
    destruct (parse_auctions_key_source l m k Hm) as (auc & _ & _ & Hkey); [eauto|].
    apply dict_key_inv in Hkey as (it & id & _ & _ & ->). done.
  - exists items, new. by rewrite Hloop.
Qed.

Lemma one_summary_per_variant_witness :
  exists items marketvalues,
    items.*1 = first_occurrences (omap variant_of [bonus_21; bonus_12; bonus_21]) /\
    (forall k h,
       (k, h) ∈ items <->
       ({[ [7; 2; 1] := {[ S754_finite false 6755399441055744 (-51) := 8 ]};
           [7; 1; 2] := {[ S754_finite false 6755399441055744 (-51) := 1 ]} ]}
          : parsed_t) !! k = Some h) /\
    main_marketvalues (fun n : Z => pretty n)
      (fun h => Ok {[ "marketvalue" := 1; "quantity" := hist_total h; "MIN" := 0 ]})
      (PyList [bonus_21; bonus_12; bonus_21])
      = (items.*2, Ok marketvalues) /\
    Forall2 (fun kh e =>
               summary_ok (fun n : Z => pretty n)
                 (fun h => Ok {[ "marketvalue" := 1; "quantity" := hist_total h;
                                 "MIN" := 0 ]})
                 kh.1 kh.2 e)
      items marketvalues.
Proof.
  apply (one_summary_per_variant (fun n : Z => pretty n)
           (fun h => Ok {[ "marketvalue" := 1; "quantity" := hist_total h; "MIN" := 0 ]})
           [bonus_21; bonus_12; bonus_21]).
  - by_compute.
  - intros k h _. eexists _, 1, (hist_total h), 0. split; [reflexivity|].
    repeat split; reflexivity.
Defined.

(** X3. When the estimator raises on the histogram of some variant of the
    parsed result, the loop of [main] raises: no list of summaries is
    returned. *)
Theorem estimator_failure_aborts {V : Type} (str : V -> string)
    (marketvalue : histogram -> pyresult (gmap string V))
    (auction_data : pyarg) (m : parsed_t) (k : dict_key_t) (h : histogram) :
  parse_auctions auction_data = Ok m -> m !! k = Some h ->
  raises (marketvalue h) ->
  raises (main_marketvalues str marketvalue auction_data).2.
Proof.
  intros Hm Hk Hr. destruct auction_data as [l|]; [|done].
  destruct (main_marketvalues_items str marketvalue l m Hm)
    as (items & -> & _ & Hitems & _).
  apply (mv_loop_raises str marketvalue _ _ _ k h); [|done].
  by apply Hitems.
Qed.

Lemma estimator_failure_aborts_witness :
  raises (main_marketvalues (fun n : Z => pretty n)
            (fun h => if decide (h = ∅) then Ok ∅ else Raise (KeyError "MIN"))
            (PyList scenario)).2.
Proof.
  apply (estimator_failure_aborts (fun n : Z => pretty n)
           (fun h => if decide (h = ∅) then Ok ∅ else Raise (KeyError "MIN"))
           (PyList scenario) {[ [100] := {[ f10_0 := 1; f0_8 := 5 ]} ]}
           [100] {[ f10_0 := 1; f0_8 := 5 ]}).
  - by_compute.
  - by_compute.
  - vm_compute. exact I.
Defined.

(** X5. Every price key of a returned histogram is the quotient by 10000
    of the price of a priced listing of the input that has the key of that
    histogram, and it is a finite, nonzero float with the sign of that
    price: no key is a zero, an infinity or a NaN. *)
Theorem price_keys_finite_signed (l : list auction) (m : parsed_t)
    (k : dict_key_t) (h : histogram) (p : float) (q : Z) :
  parse_auctions (PyList l) = Ok m -> m !! k = Some h -> h !! p = Some q ->
  exists auc bp mant e,
    auc ∈ l /\ buy_price auc = Some bp /\ bp <> 0 /\
    dict_key auc = Ok k /\
    int_truediv bp currency_scale = Ok p /\
    p = S754_finite (bp <? 0) mant e.
Proof.
  intros Hm Hk Hp.
  assert (bucket m k p = Some q) as Hb by (unfold bucket; by rewrite Hk).
  rewrite (parse_auctions_bucket l m k p Hm) in Hb.
  destruct (filter (in_bucket k p) l) as [|auc b] eqn:Hf; [done|].
  assert (auc ∈ filter (in_bucket k p) l) as Hin
    by (rewrite Hf; apply elem_of_cons; by left).
  apply list_elem_of_filter in Hin as [[Hup Hkey] Hin].
  unfold unit_price in Hup. destruct (buy_price auc) as [bp|] eqn:Hbp; [|done].
  injection Hup as Hdiv.
  pose proof (buy_price_nonzero auc bp Hbp) as Hnz.
  destruct (int_truediv_nonzero bp Hnz) as [Hov|(mant & e & Hfin)];
    [unfold currency_scale in Hdiv; congruence|].
  exists auc, bp, mant, e. do 5 (split; [done|]).
  unfold currency_scale in Hdiv. rewrite Hfin in Hdiv. by injection Hdiv as <-.
Qed.

Lemma price_keys_finite_signed_witness :
  exists auc bp mant e,
    auc ∈ scenario /\ buy_price auc = Some bp /\ bp <> 0 /\
    dict_key auc = Ok [100] /\
    int_truediv bp currency_scale = Ok f0_8 /\
    f0_8 = S754_finite (bp <? 0) mant e.
Proof.
  apply (price_keys_finite_signed scenario
           {[ [100] := {[ f10_0 := 1; f0_8 := 5 ]} ]} [100]
           {[ f10_0 := 1; f0_8 := 5 ]} f0_8 5); by_compute.
Defined.

(** X6. The call returns a mapping exactly when every priced listing of the
    input has an item with an id, has a quantity, and has a price whose
    division by 10000 does not overflow; unpriced listings are never an
    obstacle. *)
Theorem parse_auctions_succeeds_iff (l : list auction) :
  (exists m, parse_auctions (PyList l) = Ok m) <->
  (forall auc, auc ∈ l -> usable_price auc ->
     (exists it id, auc_item auc = Some it /\ item_id it = Some id) /\
     is_Some (auc_quantity auc) /\
     (forall bp, buy_price auc = Some bp ->
        exists p, int_truediv bp currency_scale = Ok p)).
Proof.
  split.
  - intros [m (es & Hes & _)%parse_auctions_Ok] auc Hin Hus.
    destruct (entries_of_elem l es auc Hes Hin) as [[[[k p] q]|] Ho].
    + apply entry_of_Some in Ho as (Hp & Hk & Hq).
      apply dict_key_inv in Hk as (it & id & Hit & Hid & _).
      split; [eauto|]. split; [eauto|]. intros bp Hbp.
      unfold unit_price in Hp. rewrite Hbp in Hp. injection Hp as Hp. eauto.
    + apply entry_of_None, unpriced_not_usable in Ho. done.
  - intros Hall.
    assert (exists es, entries_of l = Ok es) as [es Hes].
    { induction l as [|auc rest IH]; [by eexists|].
      destruct IH as [es Hes].
      { intros a Ha. apply Hall, elem_of_cons. by right. }
      assert (exists o, entry_of auc = Ok o) as [o Ho].
      { unfold entry_of, unit_price.
        destruct (buy_price auc) as [bp|] eqn:Hbp; [|by eexists].
        destruct (Hall auc) as ((it & id & Hit & Hid) & [q Hq] & Hdiv).
        - apply elem_of_cons. by left.
        - apply buy_price_usable. by rewrite Hbp.
        - destruct (Hdiv bp Hbp) as [p Hp]. rewrite Hp. simpl.
          rewrite (dict_key_Ok auc it id Hit Hid). simpl.
          rewrite Hq. by eexists. }
      exists (option_list o ++ es). apply entries_of_cons. eauto. }
    exists (foldl add_entry ∅ es). apply parse_auctions_Ok. eauto.
Qed.

(** X7. For every listing whose price is below [2 ^ 1000] in absolute value
    the division by 10000 does not raise: the unit price is a finite,
    nonzero float with the sign of the price. *)
Theorem unit_price_in_range (auc : auction) (bp : Z) :
  buy_price auc = Some bp -> Z.abs bp < 2 ^ 1000 ->
  exists mant e, unit_price auc = Some (Ok (S754_finite (bp <? 0) mant e)).
Proof.
  intros Hbp Hrange. unfold unit_price, currency_scale. rewrite Hbp.
  destruct (SFdiv_core_scale bp (buy_price_nonzero auc bp Hbp))
    as (q & e' & loc & Hcore & Hq & He' & Hdq).
  assert (Zdigits2 (Z.abs bp) <= 1000) as Hd by (apply Zdigits2_le; lia).
  destruct (binary_round_aux_pos (bp <? 0) q e' loc) as (m & e & He & Hround);
    [lia..|].
  assert ((e <=? emax - prec) = true) as Hle
    by (apply Z.leb_le; unfold emax, prec; lia).
  rewrite Hle in Hround. exists m, e. f_equal.
  unfold int_truediv. simpl (10000 =? 0). cbv iota.
  destruct (Z.eqb_spec bp 0) as [Hz|_];
    [by apply (buy_price_nonzero auc bp Hbp) in Hz|].
  rewrite Hcore. simpl (10000 <? 0). rewrite xorb_false_r, Hround. done.
Qed.

Lemma unit_price_in_range_witness :
  exists mant e,
    unit_price (listing 100 (Some []) None (Some (-8000)) 5)
    = Some (Ok (S754_finite (-8000 <? 0) mant e)).
Proof.
  apply (unit_price_in_range (listing 100 (Some []) None (Some (-8000)) 5) (-8000)).
  - reflexivity.
  - by apply Z.ltb_lt.
Defined.

(** ** Concatenated inputs *)

Lemma merge_histogram_assoc (h1 h2 h3 : histogram) :
  merge_histogram h1 (merge_histogram h2 h3) = merge_histogram (merge_histogram h1 h2) h3.
Proof.
  apply map_eq. intros p. unfold merge_histogram. rewrite !lookup_union_with.
  destruct (h1 !! p), (h2 !! p), (h3 !! p); simpl; try done. f_equal. lia.
Qed.

Lemma add_quantity_merge (h : histogram) (p : float) (q : Z) :
  add_quantity h p q = merge_histogram h {[ p := q ]}.
Proof.
  apply map_eq. intros p'. unfold merge_histogram.
  rewrite add_quantity_lookup, lookup_union_with. case_decide as Hp.
  - subst p'. rewrite lookup_singleton_eq. by destruct (h !! p).
  - rewrite lookup_singleton_ne by done. by destruct (h !! p').
Qed.

Lemma merge_parsed_assoc (m1 m2 m3 : parsed_t) :
  merge_parsed m1 (merge_parsed m2 m3) = merge_parsed (merge_parsed m1 m2) m3.
Proof.
  apply map_eq. intros k. unfold merge_parsed. rewrite !lookup_union_with.
  destruct (m1 !! k), (m2 !! k), (m3 !! k); simpl; try done.
  by rewrite merge_histogram_assoc.
Qed.

Lemma merge_parsed_empty_r (m : parsed_t) : merge_parsed m ∅ = m.
Proof.
  apply map_eq. intros k. unfold merge_parsed.
  rewrite lookup_union_with, lookup_empty. by destruct (m !! k).
Qed.

Lemma add_entry_merge (m : parsed_t) (k : dict_key_t) (p : float) (q : Z) :
  add_entry m (k, p, q) = merge_parsed m {[ k := {[ p := q ]} ]}.
Proof.
  apply map_eq. intros k'. unfold merge_parsed. rewrite lookup_union_with.
  destruct (decide (k = k')) as [<-|Hk].
  - rewrite add_entry_lookup_eq, lookup_singleton_eq.
    destruct (m !! k) as [h|]; simpl.
    + by rewrite add_quantity_merge.
    + unfold add_quantity. rewrite lookup_empty. by rewrite insert_empty.
  - rewrite add_entry_lookup_ne, lookup_singleton_ne by done.
    by destruct (m !! k').
Qed.

Lemma foldl_add_entry_merge (es : list entry) (m : parsed_t) :
  foldl add_entry m es = merge_parsed m (foldl add_entry ∅ es).
Proof.
  revert m. induction es as [|[[k p] q] es IH]; intros m; simpl.
  - by rewrite merge_parsed_empty_r.
  - rewrite (IH (add_entry m (k, p, q))), (IH (add_entry ∅ (k, p, q))).
    rewrite merge_parsed_assoc. f_equal.
    rewrite !add_entry_merge. f_equal.
    apply map_eq. intros k'. unfold merge_parsed.
    rewrite lookup_union_with, lookup_empty.
    by destruct (_ !! k').
Qed.

(** X8. Parsing a concatenation is parsing both parts and merging the two
    results, bucket by bucket; it raises what the first part raises, else
    what the second part raises. *)
Theorem parse_auctions_app (l1 l2 : list auction) :
  parse_auctions (PyList (l1 ++ l2)) =
  m1 ← parse_auctions (PyList l1);
  m2 ← parse_auctions (PyList l2);
  Ok (merge_parsed m1 m2).
Proof.
  rewrite !parse_auctions_entries, entries_of_app.
  destruct (entries_of l1) as [es1|e]; simpl; [|done].
  destruct (entries_of l2) as [es2|e]; simpl; [|done].
  rewrite foldl_app. by rewrite foldl_add_entry_merge.
Qed.

(** ** The network functions *)

Ltac net_unfold :=
  unfold mbind, net_m_bind, mret, net_m_ret, throw, lift, json_of, check_status,
    send in *.

(** Case analysis on the next thing a network computation looks at. *)
Ltac net_step :=
  match goal with
  | |- context [match ?n ?tr ?rq with ConnectionFailed _ => _ | _ => _ end] =>
      destruct (n tr rq) as [?err| |[?status ?body]] eqn:?
  | H : context [match ?n ?tr ?rq with ConnectionFailed _ => _ | _ => _ end] |- _ =>
      destruct (n tr rq) as [?err| |[?status ?body]] eqn:?
  | |- context [match ?o with Some _ => _ | None => _ end] =>
      destruct o eqn:?
  | H : context [match ?o with Some _ => _ | None => _ end] |- _ =>
      destruct o eqn:?
  | |- context [match subscript ?j ?k with Ok _ => _ | Raise _ => _ end] =>
      destruct (subscript j k) eqn:?
  | H : context [match subscript ?j ?k with Ok _ => _ | Raise _ => _ end] |- _ =>
      destruct (subscript j k) eqn:?
  | |- context [if negb (?s =? 200) then _ else _] =>
      destruct (Z.eqb_spec s 200)
  | H : context [if negb (?s =? 200) then _ else _] |- _ =>
      destruct (Z.eqb_spec s 200)
  | |- context [if ?s =? 401 then _ else _] =>
      destruct (Z.eqb_spec s 401)
  | H : context [if ?s =? 401 then _ else _] |- _ =>
      destruct (Z.eqb_spec s 401)
  end; simpl in *.

Ltac net_cases := net_unfold; simpl in *; repeat net_step.

(** X9. [get_oauth_token] sends nothing and raises [TypeError] unless its
    three arguments are strings; otherwise it sends exactly one request,
    the POST of the client credentials to the given URL, whatever the
    reply. *)
Theorem get_oauth_token_sends (network : list request -> request -> reply)
    (client_id client_secret url : json) (tr : list request) :
  match client_id, client_secret, url with
  | JStr id, JStr secret, JStr _ =>
      (get_oauth_token network client_id client_secret url tr).1
      = tr ++ [token_request id secret url]
  | _, _, _ =>
      get_oauth_token network client_id client_secret url tr
      = (tr, Throw (Builtin TypeError))
  end.
Proof.
  destruct client_id, client_secret, url; try reflexivity.
  unfold get_oauth_token. net_cases; reflexivity.
Qed.

(** X10. [get_oauth_token] returns a value exactly when its arguments are
    strings and the reply to its request has status 200 and a JSON body
    that is a dict with the key [access_token]; the value returned is the
    one under that key. *)
Theorem get_oauth_token_returns_iff (network : list request -> request -> reply)
    (client_id client_secret url : json) (tr : list request) (t : json) :
  (get_oauth_token network client_id client_secret url tr).2 = Return t <->
  exists id secret u j,
    client_id = JStr id /\ client_secret = JStr secret /\ url = JStr u /\
    network tr (token_request id secret url)
      = Responded {| status_code := 200; body := Some j |} /\
    subscript j "access_token" = Ok t.
Proof.
  split.
  - destruct client_id as [| | | |id| |]; try done.
    destruct client_secret as [| | | |secret| |]; try done.
    destruct url as [| | | |u| |]; try done.
    unfold get_oauth_token. intros H. net_cases; try done.
    injection H as <-. subst. by exists id, secret, u, j.
  - intros (id & secret & u & j & -> & -> & -> & Hnet & Hj).
    unfold get_oauth_token. net_unfold. simpl. rewrite Hnet. simpl.
    by rewrite Hj.
Qed.

(** X11. On a reply whose status is not 200, [get_oauth_token] raises by
    the status alone, [ValueError] for 401 and [ConnectionError] otherwise:
    the body of such a reply is not read. *)
Theorem get_oauth_token_raises_by_status (network : list request -> request -> reply)
    (id secret u : string) (tr : list request) (resp : response) :
  network tr (token_request id secret (JStr u)) = Responded resp ->
  status_code resp <> 200 ->
  (get_oauth_token network (JStr id) (JStr secret) (JStr u) tr).2 =
  Throw (if status_code resp =? 401 then ValueError 401
         else ConnectionError (HttpStatus (status_code resp))).
Proof.
  intros Hnet Hst. unfold get_oauth_token. net_unfold. simpl. rewrite Hnet.
  destruct resp as [st bd]. simpl in *.
  destruct (Z.eqb_spec st 200); [done|]. simpl.
  destruct (Z.eqb_spec st 401) as [->|]; done.
Qed.

Lemma get_oauth_token_raises_by_status_witness :
  (get_oauth_token refusing (JStr "id") (JStr "secret") (JStr "https://o") []).2 =
  Throw (if status_code {| status_code := 401;
                           body := Some (JObj [("code", JInt 401)]) |} =? 401
         then ValueError 401
         else ConnectionError (HttpStatus 401)).
Proof.
  apply (get_oauth_token_raises_by_status refusing "id" "secret" "https://o" []).
  - reflexivity.
  - simpl. lia.
Defined.

(** What a returned value of [_get_auction_data] tells. *)
Lemma get_auction_data_inv (network : list request -> request -> reply)
    (api_base_url : string) (token realm locale : json)
    (tr tr' : list request) (v : json) :
  _get_auction_data network api_base_url token realm locale tr = (tr', Return v) ->
  exists tok rlm loc r1 j1 cr href1 r2 j2 au href2 r3 j3,
    token = JStr tok /\ realm = JStr rlm /\ locale = JStr loc /\
    let rq1 := api_get tok loc (JStr (api_base_url +:+ "/data/wow/realm/" +:+ rlm)) in
    let rq2 := api_get tok loc href1 in
    let rq3 := api_get tok loc href2 in
    network tr rq1 = Responded r1 /\ body r1 = Some j1 /\
    subscript j1 "connected_realm" = Ok cr /\ subscript cr "href" = Ok href1 /\
    network (tr ++ [rq1]) rq2 = Responded r2 /\ body r2 = Some j2 /\
    subscript j2 "auctions" = Ok au /\ subscript au "href" = Ok href2 /\
    network ((tr ++ [rq1]) ++ [rq2]) rq3 = Responded r3 /\ body r3 = Some j3 /\
    status_code r3 = 200 /\ subscript j3 "auctions" = Ok v /\
    tr' = ((tr ++ [rq1]) ++ [rq2]) ++ [rq3].
Proof.
  destruct token as [| | | |tok| |]; try done.
  destruct realm as [| | | |rlm| |]; try done.
  destruct locale as [| | | |loc| |]; try done.
  unfold _get_auction_data. intros H. net_cases; try done.
  injection H as <- <-. subst.
  eexists tok, rlm, loc, _, _, _, _, _, _, _, _, _, _.
  repeat (split; [done || eassumption|]). done.
Qed.

(** What a returned value of [get_oauth_token] tells. *)
Lemma get_oauth_token_inv (network : list request -> request -> reply)
    (client_id client_secret url : json) (tr tr' : list request) (t : json) :
  get_oauth_token network client_id client_secret url tr = (tr', Return t) ->
  exists id secret u j,
    client_id = JStr id /\ client_secret = JStr secret /\ url = JStr u /\
    network tr (token_request id secret url)
      = Responded {| status_code := 200; body := Some j |} /\
    subscript j "access_token" = Ok t /\
    tr' = tr ++ [token_request id secret url].
Proof.
  destruct client_id as [| | | |id| |]; try done.
  destruct client_secret as [| | | |secret| |]; try done.
  destruct url as [| | | |u| |]; try done.
  unfold get_oauth_token. intros H. net_cases; try done.
  injection H as <- <-. subst. by exists id, secret, u, j.
Qed.

(** X12. [_get_auction_data] returns a value exactly when its arguments are
    strings and three requests in a row are answered: the realm document
    with a link under [connected_realm.href], the document behind that link
    with a link under [auctions.href], and the document behind that one with
    status 200 and the key [auctions], whose value is returned.  The status
    codes of the first two replies play no part. *)
Theorem get_auction_data_returns_iff (network : list request -> request -> reply)
    (api_base_url : string) (token realm locale : json)
    (tr tr' : list request) (v : json) :
  _get_auction_data network api_base_url token realm locale tr = (tr', Return v) <->
  exists tok rlm loc r1 j1 cr href1 r2 j2 au href2 r3 j3,
    token = JStr tok /\ realm = JStr rlm /\ locale = JStr loc /\
    let rq1 := api_get tok loc (JStr (api_base_url +:+ "/data/wow/realm/" +:+ rlm)) in
    let rq2 := api_get tok loc href1 in
    let rq3 := api_get tok loc href2 in
    network tr rq1 = Responded r1 /\ body r1 = Some j1 /\
    subscript j1 "connected_realm" = Ok cr /\ subscript cr "href" = Ok href1 /\
    network (tr ++ [rq1]) rq2 = Responded r2 /\ body r2 = Some j2 /\
    subscript j2 "auctions" = Ok au /\ subscript au "href" = Ok href2 /\
    network ((tr ++ [rq1]) ++ [rq2]) rq3 = Responded r3 /\ body r3 = Some j3 /\
    status_code r3 = 200 /\ subscript j3 "auctions" = Ok v /\
    tr' = ((tr ++ [rq1]) ++ [rq2]) ++ [rq3].
Proof.
  split; [apply get_auction_data_inv|].
  intros (tok & rlm & loc & r1 & j1 & cr & href1 & r2 & j2 & au & href2 & r3 & j3
          & -> & -> & -> & H).
  simpl in H.
  destruct H as (N1 & B1 & S1 & S2 & N2 & B2 & S3 & S4 & N3 & B3 & St & S5 & ->).
  unfold _get_auction_data. net_unfold. simpl.
  rewrite N1. simpl. rewrite B1. simpl. rewrite S1. simpl. rewrite S2. simpl.
  rewrite N2. simpl. rewrite B2. simpl. rewrite S3. simpl. rewrite S4. simpl.
  rewrite N3. simpl. rewrite B3. simpl. rewrite St. simpl. rewrite S5. done.
Qed.

(** X13. [_get_auction_data] sends at most three requests.  Unless its
    arguments are strings it sends none; otherwise the first one goes to the
    realm document of the given realm, and every request is a GET with the
    bearer token, the namespace [dynamic-eu] and the locale. *)
Theorem get_auction_data_requests (network : list request -> request -> reply)
    (api_base_url : string) (token realm locale : json) (tr : list request) :
  exists new,
    (_get_auction_data network api_base_url token realm locale tr).1 = tr ++ new /\
    (length new <= 3)%nat /\
    match token, realm, locale with
    | JStr tok, JStr rlm, JStr loc =>
        new !! 0%nat
          = Some (api_get tok loc (JStr (api_base_url +:+ "/data/wow/realm/" +:+ rlm))) /\
        Forall (fun rq => exists url, rq = api_get tok loc url) new
    | _, _, _ => new = []
    end.
Proof.
  assert (forall t r l, (is_str t && is_str r && is_str l) = false ->
            _get_auction_data network api_base_url t r l tr
            = (tr, Throw (Builtin TypeError))) as Hty.
  { intros [] [] []; done. }
  destruct token as [| | | |tok| |];
    try (exists []; rewrite Hty by done; simpl; rewrite app_nil_r;
         split; [done|]; split; [lia | done]).
  destruct realm as [| | | |rlm| |];
    try (exists []; rewrite Hty by done; simpl; rewrite app_nil_r;
         split; [done|]; split; [lia | done]).
  destruct locale as [| | | |loc| |];
    try (exists []; rewrite Hty by done; simpl; rewrite app_nil_r;
         split; [done|]; split; [lia | done]).
  unfold _get_auction_data. net_cases;
    (eexists; split; [rewrite <- ?app_assoc; reflexivity|]; simpl;
     split; [lia|]; split; [reflexivity|];
     repeat constructor; eexists; reflexivity).
Qed.

(** X14. When the realm document is answered by a JSON dict without the key
    [connected_realm], as an error document is, [_get_auction_data] raises
    [KeyError] after that one request, whatever the status of the reply: a
    401 there is not reported as [ValueError]. *)
Theorem realm_reply_without_link (network : list request -> request -> reply)
    (api_base_url tok rlm loc : string) (tr : list request)
    (r1 : response) (items : list (string * json)) :
  let rq1 := api_get tok loc (JStr (api_base_url +:+ "/data/wow/realm/" +:+ rlm)) in
  network tr rq1 = Responded r1 ->
  body r1 = Some (JObj items) ->
  assoc "connected_realm" items = None ->
  _get_auction_data network api_base_url (JStr tok) (JStr rlm) (JStr loc) tr
  = (tr ++ [rq1], Throw (Builtin (KeyError "connected_realm"))).
Proof.
  intros rq1 Hnet Hbody Hkey. unfold _get_auction_data. net_unfold. simpl.
  fold rq1. rewrite Hnet. simpl. rewrite Hbody. simpl. rewrite Hkey. done.
Qed.

Lemma realm_reply_without_link_witness :
  _get_auction_data refusing "https://eu.api.blizzard.com"
    (JStr "t0k") (JStr "ragnaros") (JStr "en_GB") []
  = ([] ++ [api_get "t0k" "en_GB"
              (JStr ("https://eu.api.blizzard.com" +:+ "/data/wow/realm/" +:+ "ragnaros"))],
     Throw (Builtin (KeyError "connected_realm"))).
Proof.
  apply (realm_reply_without_link refusing "https://eu.api.blizzard.com"
           "t0k" "ragnaros" "en_GB" []
           {| status_code := 401; body := Some (JObj [("code", JInt 401)]) |}
           [("code", JInt 401)]); reflexivity.
Defined.

(** X15. The body of the auction reply is decoded before its status is
    looked at: when the first two requests are answered with their links
    and the third reply has no JSON body, [_get_auction_data] raises the
    decoding error, also when the status is 401 or another error status. *)
Theorem auction_body_decoded_before_status
    (network : list request -> request -> reply)
    (api_base_url tok rlm loc : string) (tr : list request)
    (r1 r2 r3 : response) (j1 cr href1 j2 au href2 : json) :
  let rq1 := api_get tok loc (JStr (api_base_url +:+ "/data/wow/realm/" +:+ rlm)) in
  let rq2 := api_get tok loc href1 in
  let rq3 := api_get tok loc href2 in
  network tr rq1 = Responded r1 -> body r1 = Some j1 ->
  subscript j1 "connected_realm" = Ok cr -> subscript cr "href" = Ok href1 ->
  network (tr ++ [rq1]) rq2 = Responded r2 -> body r2 = Some j2 ->
  subscript j2 "auctions" = Ok au -> subscript au "href" = Ok href2 ->
  network ((tr ++ [rq1]) ++ [rq2]) rq3 = Responded r3 -> body r3 = None ->
  _get_auction_data network api_base_url (JStr tok) (JStr rlm) (JStr loc) tr
  = (((tr ++ [rq1]) ++ [rq2]) ++ [rq3], Throw JSONDecodeError).
Proof.
  intros rq1 rq2 rq3 N1 B1 S1 S2 N2 B2 S3 S4 N3 B3.
  unfold _get_auction_data. net_unfold. simpl. fold rq1.
  rewrite N1. simpl. rewrite B1. simpl. rewrite S1. simpl. rewrite S2. simpl.
  fold rq2. rewrite N2. simpl. rewrite B2. simpl. rewrite S3. simpl. rewrite S4. simpl.
  fold rq3. rewrite N3. simpl. rewrite B3. done.
Qed.

Lemma auction_body_decoded_before_status_witness :
  _get_auction_data (scripted (Responded {| status_code := 401; body := None |}))
    "https://b" (JStr "t0k") (JStr "r") (JStr "l")
    [token_request "id" "secret" (JStr "https://o")]
  = ((([token_request "id" "secret" (JStr "https://o")]
         ++ [api_get "t0k" "l" (JStr ("https://b" +:+ "/data/wow/realm/" +:+ "r"))])
        ++ [api_get "t0k" "l" (JStr "https://c")])
        ++ [api_get "t0k" "l" (JStr "https://a")],
     Throw JSONDecodeError).
Proof.
  apply (auction_body_decoded_before_status
           (scripted (Responded {| status_code := 401; body := None |}))
           "https://b" "t0k" "r" "l"
           [token_request "id" "secret" (JStr "https://o")]
           {| status_code := 200;
              body := Some (JObj [("connected_realm",
                                   JObj [("href", JStr "https://c")])]) |}
           {| status_code := 200;
              body := Some (JObj [("auctions", JObj [("href", JStr "https://a")])]) |}
           {| status_code := 401; body := None |}
           (JObj [("connected_realm", JObj [("href", JStr "https://c")])])
           (JObj [("href", JStr "https://c")]) (JStr "https://c")
           (JObj [("auctions", JObj [("href", JStr "https://a")])])
           (JObj [("href", JStr "https://a")]) (JStr "https://a"));
    reflexivity.
Defined.

(** [main_fetch] step by step. *)
Lemma main_fetch_run (network : list request -> request -> reply)
    (oauth_client oauth_secret region realm locale : option string)
    (tr : list request) :
  main_fetch network oauth_client oauth_secret region realm locale tr =
  match get_oauth_token network (env_value oauth_client) (env_value oauth_secret)
          (JStr ("https://" +:+ env_format region +:+ ".battle.net/oauth/token")) tr with
  | (tr1, Return token) =>
      match _get_auction_data network
              ("https://" +:+ env_format region +:+ ".api.blizzard.com") token
              (env_value realm) (env_value locale) tr1 with
      | (tr2, Return data) =>
          (tr2,
           Return ({| self_region := region; self_realm := realm;
                      self_locale := locale;
                      self_auth_client := oauth_client;
                      self_auth_secret := oauth_secret;
                      self_api_base_url :=
                        "https://" +:+ env_format region +:+ ".api.blizzard.com";
                      self_oauth_base_url :=
                        "https://" +:+ env_format region +:+ ".battle.net/oauth/token";
                      self_token := token; self_data := data |}, data))
      | (tr2, Throw e) => (tr2, Throw e)
      end
  | (tr1, Throw e) => (tr1, Throw e)
  end.
Proof.
  unfold main_fetch, GoblineerUpdater_init, get_auction_data.
  unfold mbind, net_m_bind, mret, net_m_ret.
  destruct (get_oauth_token _ _ _ _ tr) as [tr1 [token|e]]; [|done]. simpl.
  destruct (_get_auction_data _ _ _ _ _ tr1) as [tr2 [data|e]]; done.
Qed.




(** X17. When the fetch of [main] returns, exactly four requests have been
    sent: the token POST to the OAuth host of the region, then three GETs
    that carry the token just obtained, the first one to the realm document
    on the API host of the region.  The updater keeps that token, and its
    [data] is the value returned. *)
Theorem main_fetch_returns (network : list request -> request -> reply)
    (oauth_client oauth_secret region realm locale : option string)
    (tr tr' : list request) (updater : GoblineerUpdater) (data : json) :
  main_fetch network oauth_client oauth_secret region realm locale tr
  = (tr', Return (updater, data)) ->
  exists id secret rlm loc tok href1 href2,
    oauth_client = Some id /\ oauth_secret = Some secret /\
    realm = Some rlm /\ locale = Some loc /\
    tr' = tr ++
      [ token_request id secret
          (JStr ("https://" +:+ env_format region +:+ ".battle.net/oauth/token"));
        api_get tok loc
          (JStr (("https://" +:+ env_format region +:+ ".api.blizzard.com")
                 +:+ "/data/wow/realm/" +:+ rlm));
        api_get tok loc href1;
        api_get tok loc href2 ] /\
    self_token updater = JStr tok /\ self_data updater = data /\
    self_realm updater = realm /\ self_locale updater = locale /\
    self_region updater = region.
Proof.
  rewrite main_fetch_run. intros H.
  destruct (get_oauth_token _ _ _ _ tr) as [tr1 [token|e]] eqn:Htok; [|done].
  destruct (_get_auction_data _ _ _ _ _ tr1) as [tr2 [d|e]] eqn:Hdata; [|done].
  injection H as <- <- <-.
  apply get_oauth_token_inv in Htok
    as (id & secret & u & j & Hc & Hs & _ & _ & _ & ->).
  apply get_auction_data_inv in Hdata
    as (tok & rlm & loc & r1 & j1 & cr & href1 & r2 & j2 & au & href2 & r3 & j3
        & -> & Hr & Hl & H).
  simpl in H. destruct H as (_ & _ & _ & _ & _ & _ & _ & _ & _ & _ & _ & _ & ->).
  destruct oauth_client as [id'|]; [|done]. injection Hc as ->.
  destruct oauth_secret as [secret'|]; [|done]. injection Hs as ->.
  destruct realm as [rlm'|]; [|done]. injection Hr as ->.
  destruct locale as [loc'|]; [|done]. injection Hl as ->.
  exists id, secret, rlm, loc, tok, href1, href2.
  repeat (split; [done|]). split; [|done].
  rewrite <- !app_assoc. done.
Qed.

Lemma main_fetch_returns_witness :
  exists id secret rlm loc tok href1 href2,
    Some "id" = Some id /\ Some "secret" = Some secret /\
    Some "ragnaros" = Some rlm /\ Some "en_GB" = Some loc /\
    [ token_request "id" "secret" (JStr "https://None.battle.net/oauth/token");
      api_get "t0k" "en_GB"
        (JStr "https://None.api.blizzard.com/data/wow/realm/ragnaros");
      api_get "t0k" "en_GB" (JStr "https://c");
      api_get "t0k" "en_GB" (JStr "https://a") ]
    = [] ++
      [ token_request id secret
          (JStr ("https://" +:+ env_format None +:+ ".battle.net/oauth/token"));
        api_get tok loc
          (JStr (("https://" +:+ env_format None +:+ ".api.blizzard.com")
                 +:+ "/data/wow/realm/" +:+ rlm));
        api_get tok loc href1;
        api_get tok loc href2 ] /\
    self_token fetched_updater = JStr tok /\
    self_data fetched_updater = JList [] /\
    self_realm fetched_updater = Some "ragnaros" /\
    self_locale fetched_updater = Some "en_GB" /\
    self_region fetched_updater = None.
Proof.
  apply (main_fetch_returns
           (scripted (Responded {| status_code := 200;
                                   body := Some (JObj [("auctions", JList [])]) |}))
           (Some "id") (Some "secret") None (Some "ragnaros") (Some "en_GB") []).
  reflexivity.
Defined.

(** ** The earlier updater *)

Lemma float_of_int_scale : float_of_int 10000 = Ok f10000.
Proof. reflexivity. Qed.

Lemma float_truediv_scale (x : float) :
  float_truediv x 10000 = Ok (SFdiv Float.prec Float.emax x f10000).
Proof. unfold float_truediv. rewrite float_of_int_scale. done. Qed.

Lemma append_units_spec (count : nat) (auc : old_auction) (up : float) (d : prices_t) :
  append_units count auc up d =
  match count with
  | O => Ok d
  | S _ =>
      item ← getitem "item" (oa_item auc);
      Ok (<[item := default [] (d !! item) ++ replicate count up]> d)
  end.
Proof.
  revert d. induction count as [|n IH]; intros d; [done|].
  simpl. destruct (oa_item auc) as [item|] eqn:Hitem; [|done]. simpl.
  rewrite IH. destruct n as [|n]; [done|].
  simpl. rewrite lookup_insert_eq, insert_insert_eq. simpl.
  by rewrite <- app_assoc.
Qed.

(** Simplification that leaves the float operations folded. *)
Ltac psimpl :=
  cbn [mbind pyresult_bind getitem from_option negb andb default] in *.

Lemma update_body_entry (d : prices_t) (auc : old_auction) :
  update_body d auc = o ← old_entry_of auc; Ok (from_option (add_units d) d o).
Proof.
  unfold update_body, old_entry_of.
  destruct (oa_buyout auc) as [b|]; [|done]. psimpl.
  destruct (negb (b =? 0)); [|done].
  destruct (oa_quantity auc) as [q|]; [|done]. psimpl.
  destruct (int_truediv b q) as [pu|]; [|done]. psimpl.
  rewrite float_truediv_scale. psimpl. rewrite append_units_spec.
  destruct (Z.to_nat q) as [|n]; [done|].
  destruct (oa_item auc); done.
Qed.

Lemma add_units_lookup (d : prices_t) (e : item_key * float * nat) (item : item_key) :
  default [] (add_units d e !! item) =
  default [] (d !! item) ++ (if decide (e.1.1 = item) then replicate e.2 e.1.2 else []).
Proof.
  destruct e as [[i up] n]. unfold add_units. simpl.
  destruct (decide (i = item)) as [->|Hne].
  - by rewrite lookup_insert_eq.
  - rewrite lookup_insert_ne by done. by rewrite app_nil_r.
Qed.

Lemma update_loop_lookup (l : list old_auction) (d d' : prices_t) (item : item_key) :
  update_loop d l = Ok d' ->
  default [] (d' !! item) = default [] (d !! item) ++ flat_map (units_of item) l.
Proof.
  revert d. induction l as [|auc rest IH]; intros d; simpl.
  - intros [= <-]. by rewrite app_nil_r.
  - rewrite update_body_entry. unfold units_of.
    destruct (old_entry_of auc) as [o|]; [|done]. simpl. intros Hloop.
    rewrite (IH _ Hloop).
    destruct o as [[[i up] n]|]; simpl; [|done].
    rewrite add_units_lookup. simpl. by rewrite <- app_assoc.
Qed.

Lemma update_loop_no_empty (l : list old_auction) (d d' : prices_t) :
  (forall item ps, d !! item = Some ps -> ps <> []) ->
  update_loop d l = Ok d' ->
  forall item ps, d' !! item = Some ps -> ps <> [].
Proof.
  revert d. induction l as [|auc rest IH]; intros d Hd; simpl.
  - by intros [= <-].
  - rewrite update_body_entry.
    destruct (old_entry_of auc) as [o|] eqn:Ho; [|done]. simpl.
    apply IH. destruct o as [[[i up] n]|]; simpl; [|done].
    intros item ps. unfold add_units.
    destruct (decide (i = item)) as [->|Hne].
    + rewrite lookup_insert_eq. intros [= <-].
      assert (n <> 0%nat) as Hn.
      { unfold old_entry_of in Ho.
        destruct (oa_buyout auc); [|done]. psimpl.
        destruct (negb _); [|done].
        destruct (oa_quantity auc) as [q|]; [|done]. psimpl.
        destruct (int_truediv _ _); [|done]. psimpl.
        rewrite float_truediv_scale in Ho. psimpl.
        destruct (Z.to_nat q); [done|].
        destruct (oa_item auc); [|done]. psimpl. by injection Ho as _ _ <-. }
      destruct n; [done|]. simpl. by destruct (default [] (d !! item)).
    + rewrite lookup_insert_ne by done. apply Hd.
Qed.

Lemma units_of_length (item : item_key) (auc : old_auction) :
  (exists o, old_entry_of auc = Ok o) ->
  length (units_of item auc) = units_count item auc.
Proof.
  intros [o Ho]. unfold units_of, units_count, counted_for. rewrite Ho.
  unfold old_entry_of in Ho.
  destruct (oa_buyout auc) as [b|]; [|done]. psimpl.
  destruct (Z.eqb_spec b 0) as [Hz|Hb]; psimpl.
  { injection Ho as <-. by destruct (oa_item auc). }
  destruct (oa_quantity auc) as [q|]; [|done]. psimpl.
  destruct (int_truediv b q) as [pu|]; [|done]. psimpl.
  rewrite float_truediv_scale in Ho. psimpl.
  destruct (Z.to_nat q) as [|n] eqn:Hq.
  { injection Ho as <-. destruct (oa_item auc); [|done].
    by destruct (bool_decide _). }
  destruct (oa_item auc) as [i|]; [|done]. psimpl. injection Ho as <-.
  destruct (decide (i = item)) as [->|Hne].
  - rewrite bool_decide_eq_true_2 by done. by rewrite length_replicate.
  - by rewrite bool_decide_eq_false_2.
Qed.

Lemma update_loop_entries (l : list old_auction) (d d' : prices_t) (auc : old_auction) :
  update_loop d l = Ok d' -> auc ∈ l -> exists o, old_entry_of auc = Ok o.
Proof.
  revert d. induction l as [|a rest IH]; intros d Hloop Hin.
  - by apply elem_of_nil in Hin.
  - simpl in Hloop. rewrite update_body_entry in Hloop.
    destruct (old_entry_of a) as [o|] eqn:Ho; [|done]. simpl in Hloop.
    apply elem_of_cons in Hin as [->|Hin]; eauto.
Qed.

Lemma old_entry_of_Ok_iff (auc : old_auction) :
  (exists o, old_entry_of auc = Ok o) <->
  exists b, oa_buyout auc = Some b /\
    (b <> 0 ->
     exists q pu, oa_quantity auc = Some q /\ q <> 0 /\
       int_truediv b q = Ok pu /\ (0 < q -> is_Some (oa_item auc))).
Proof.
  unfold old_entry_of. split.
  - intros [o Ho]. destruct (oa_buyout auc) as [b|]; [|done]. psimpl.
    exists b. split; [done|]. intros Hb.
    destruct (Z.eqb_spec b 0) as [|_]; [done|]. psimpl.
    destruct (oa_quantity auc) as [q|]; [|done]. psimpl.
    destruct (int_truediv b q) as [pu|] eqn:Hdiv; [|done]. psimpl.
    exists q, pu. split; [done|]. split.
    { intros ->. unfold int_truediv in Hdiv. done. }
    split; [done|]. intros Hq.
    rewrite float_truediv_scale in Ho. psimpl.
    destruct (Z.to_nat q) eqn:Hn; [lia|].
    destruct (oa_item auc); [eauto | done].
  - intros (b & -> & Hcond). psimpl.
    destruct (Z.eqb_spec b 0) as [|Hb]; psimpl; [eauto|].
    destruct (Hcond Hb) as (q & pu & -> & Hq & Hdiv & Hitem). psimpl.
    rewrite Hdiv. psimpl. rewrite float_truediv_scale. psimpl.
    destruct (Z.to_nat q) eqn:Hn; [eauto|].
    destruct Hitem as [i ->]; [lia|]. psimpl. eauto.
Qed.

Lemma update_loop_Ok_iff (l : list old_auction) (d : prices_t) :
  (exists d', update_loop d l = Ok d') <->
  (forall auc, auc ∈ l -> exists o, old_entry_of auc = Ok o).
Proof.
  split.
  - intros [d' Hloop] auc Hin. by apply (update_loop_entries l d d').
  - revert d. induction l as [|auc rest IH]; intros d Hall; [by eexists|].
    simpl. rewrite update_body_entry.
    destruct (Hall auc) as [o ->]; [apply elem_of_cons; by left|]. psimpl.
    apply IH. intros a Ha. apply Hall, elem_of_cons. by right.
Qed.

Lemma units_of_elem (item : item_key) (auc : old_auction) (p : float) :
  p ∈ units_of item auc ->
  counted_for item auc = true /\ old_unit_price auc = Ok p.
Proof.
  unfold units_of, counted_for, old_unit_price, old_entry_of.
  destruct (oa_buyout auc) as [b|]; psimpl; [|by intros ?%elem_of_nil].
  destruct (Z.eqb_spec b 0) as [|Hb]; psimpl; [by intros ?%elem_of_nil|].
  destruct (oa_quantity auc) as [q|]; psimpl; [|by intros ?%elem_of_nil].
  destruct (int_truediv b q) as [pu|]; psimpl; [|by intros ?%elem_of_nil].
  rewrite float_truediv_scale. psimpl.
  destruct (Z.to_nat q); [by intros ?%elem_of_nil|].
  destruct (oa_item auc) as [i|]; psimpl; [|by intros ?%elem_of_nil].
  destruct (decide (i = item)) as [->|]; [|by intros ?%elem_of_nil].
  intros [-> _]%elem_of_replicate. by rewrite bool_decide_eq_true_2.
Qed.

(** X18. In the dict that [update_auctions] returns, no list is empty and
    every price in the list of an item is the unit price, buyout divided by
    quantity and by 10000, of a listing of that item with a nonzero
    buyout. *)
Theorem update_auctions_prices (l : list old_auction) (d : prices_t)
    (item : item_key) (ps : list float) :
  update_auctions l = Ok d -> d !! item = Some ps ->
  ps <> [] /\
  Forall (fun p => exists auc,
            auc ∈ l /\ counted_for item auc = true /\ old_unit_price auc = Ok p) ps.
Proof.
  intros Hd Hps. split.
  - apply (update_loop_no_empty l ∅ d) with (item := item); [|done..].
    intros i p. by rewrite lookup_empty.
  - pose proof (update_loop_lookup l ∅ d item Hd) as Hl.
    rewrite Hps, lookup_empty in Hl. simpl in Hl. subst ps.
    apply list.Forall_forall. intros p Hp.
    apply list_elem_of_In, in_flat_map in Hp as (auc & Hin & Hp).
    exists auc. split; [by apply list_elem_of_In|].
    apply units_of_elem. by apply list_elem_of_In.
Qed.

Lemma update_auctions_prices_witness :
  [ S754_finite false 5629499534213120 (-49);
    S754_finite false 5629499534213120 (-49);
    S754_finite false 5629499534213120 (-49);
    S754_finite false 5629499534213120 (-50) ] <> [] /\
  Forall (fun p => exists auc,
            auc ∈ old_listings /\ counted_for (KInt 7) auc = true /\
            old_unit_price auc = Ok p)
    [ S754_finite false 5629499534213120 (-49);
      S754_finite false 5629499534213120 (-49);
      S754_finite false 5629499534213120 (-49);
      S754_finite false 5629499534213120 (-50) ].
Proof.
  apply (update_auctions_prices old_listings
           {[ KInt 7 := [ S754_finite false 5629499534213120 (-49);
                          S754_finite false 5629499534213120 (-49);
                          S754_finite false 5629499534213120 (-49);
                          S754_finite false 5629499534213120 (-50) ] ]}
           (KInt 7)); by_compute.
Defined.

(** X19. In the dict that [update_auctions] returns, the list of an item has
    one price for every unit offered: its length is the sum, over the
    listings of that item with a nonzero buyout, of their quantities (a
    negative quantity counting for nothing). *)
Theorem update_auctions_one_price_per_unit (l : list old_auction) (d : prices_t)
    (item : item_key) :
  update_auctions l = Ok d ->
  length (default [] (d !! item)) = sum_list (units_count item <$> l).
Proof.
  intros Hd. rewrite (update_loop_lookup l ∅ d item Hd), lookup_empty. simpl.
  assert (forall auc, auc ∈ l -> exists o, old_entry_of auc = Ok o) as Hall.
  { intros auc Hin. by apply (update_loop_entries l ∅ d). }
  clear Hd. induction l as [|auc rest IH]; [done|].
  simpl. rewrite length_app, units_of_length.
  - f_equal. apply IH. intros a Ha. apply Hall, elem_of_cons. by right.
  - apply Hall, elem_of_cons. by left.
Qed.

Lemma update_auctions_one_price_per_unit_witness :
  length (default [] (({[ KInt 7 := [ S754_finite false 5629499534213120 (-49);
                                      S754_finite false 5629499534213120 (-49);
                                      S754_finite false 5629499534213120 (-49);
                                      S754_finite false 5629499534213120 (-50) ] ]}
                       : prices_t) !! KInt 7))
  = sum_list (units_count (KInt 7) <$> old_listings).
Proof.
  apply (update_auctions_one_price_per_unit old_listings). by_compute.
Defined.

(** X20. [update_auctions] returns a dict exactly when every listing has a
    buyout, and every listing with a nonzero buyout has a quantity that is
    not zero, a quotient buyout / quantity that a float can hold, and, when
    the quantity is positive, an item.  A listing without buyout, or with a
    nonzero buyout and quantity zero, makes the whole call raise. *)
Theorem update_auctions_succeeds_iff (l : list old_auction) :
  (exists d, update_auctions l = Ok d) <->
  (forall auc, auc ∈ l ->
     exists b, oa_buyout auc = Some b /\
       (b <> 0 ->
        exists q pu, oa_quantity auc = Some q /\ q <> 0 /\
          int_truediv b q = Ok pu /\ (0 < q -> is_Some (oa_item auc)))).
Proof.
  unfold update_auctions. rewrite update_loop_Ok_iff.
  split; intros H auc Hin; apply old_entry_of_Ok_iff; by apply H.
Qed.

(** ** The names of the items *)

Lemma load_names_no_str (saved : list saved_item) (d d' : names_t) :
  no_str_keys d ->
  (forall e s, e ∈ saved -> si_item e <> Some (KStr s)) ->
  load_names d saved = Ok d' -> no_str_keys d'.
Proof.
  revert d. induction saved as [|e rest IH]; intros d Hd Hsaved; simpl.
  - by intros [= <-].
  - destruct (si_name e) as [name|]; [|done]. psimpl.
    destruct (si_item e) as [item|] eqn:Hitem; [|done]. psimpl.
    apply IH.
    + intros s. destruct item as [n|s'].
      * by rewrite lookup_insert_ne.
      * exfalso. apply (Hsaved e s'); [apply elem_of_cons; by left | done].
    + intros e' s Hin. apply Hsaved, elem_of_cons. by right.
Qed.

Lemma names_loop_grows (get_item_name : item_key -> string -> string -> string -> pyresult string)
    (items : list item_key) (region api_key locale : string)
    (d d' : names_t) (lst lst' : list saved_item) :
  names_loop get_item_name items region api_key locale d lst = Ok (d', lst') ->
  exists new,
    lst' = lst ++ new /\
    Forall (fun e => exists item name,
              e = {| si_item := Some item; si_name := Some name |} /\
              item ∈ items /\
              get_item_name item region api_key locale = Ok name) new.
Proof.
  revert d lst. induction items as [|item rest IH]; intros d lst; simpl.
  - intros [= <- <-]. exists []. by rewrite app_nil_r.
  - destruct (negb _).
    + destruct (get_item_name item region api_key locale) as [name|] eqn:Hname;
        [|done]. psimpl.
      intros (new & -> & Hnew)%IH. eexists (_ :: new). rewrite <- app_assoc.
      split; [done|]. constructor.
      * exists item, name. split; [done|]. split; [apply elem_of_cons; by left | done].
      * eapply Forall_impl; [exact Hnew|].
        intros e (i & n & -> & Hi & Hn). exists i, n.
        split; [done|]. split; [apply elem_of_cons; by right | done].
    + intros (new & -> & Hnew)%IH. exists new. split; [done|].
      eapply Forall_impl; [exact Hnew|].
      intros e (i & n & -> & Hi & Hn). exists i, n.
      split; [done|]. split; [apply elem_of_cons; by right | done].
Qed.

Lemma names_loop_ints (get_item_name : item_key -> string -> string -> string -> pyresult string)
    (items : list item_key) (region api_key locale : string)
    (d d' : names_t) (lst lst' : list saved_item) :
  no_str_keys d ->
  (forall item, item ∈ items -> exists n, item = KInt n) ->
  names_loop get_item_name items region api_key locale d lst = Ok (d', lst') ->
  no_str_keys d' /\ length lst' = (length lst + length items)%nat.
Proof.
  revert d lst. induction items as [|item rest IH]; intros d lst Hd Hints; simpl.
  - intros [= <- <-]. split; [done | lia].
  - rewrite Hd. rewrite bool_decide_eq_false_2 by (by intros [? ?]). simpl.
    destruct (get_item_name item region api_key locale) as [name|]; [|done]. psimpl.
    intros Hloop. apply IH in Hloop as [Hd' Hlen].
    + split; [done|]. rewrite Hlen, length_app. simpl. lia.
    + intros s. destruct (Hints item) as [n ->]; [apply elem_of_cons; by left|].
      by rewrite lookup_insert_ne.
    + intros i Hi. apply Hints, elem_of_cons. by right.
Qed.

Lemma marketvalue_loop_raises {MV : Type}
    (marketvalue : item_key -> list float -> string -> pyresult MV)
    (items : list item_key) (auctions_dict : prices_t) (item_names : names_t)
    (marketvalues : list MV) (item : item_key) :
  item ∈ items -> item_names !! KStr (str_key item) = None ->
  raises (marketvalue_loop marketvalue items auctions_dict item_names marketvalues).
Proof.
  revert marketvalues. induction items as [|i rest IH]; intros mvs Hin Hnone.
  - by apply elem_of_nil in Hin.
  - simpl. apply elem_of_cons in Hin as [<-|Hin].
    + by rewrite Hnone.
    + destruct (item_names !! KStr (str_key i)) as [name|]; [|done]. psimpl.
      destruct (marketvalue i _ name); [|done]. psimpl. by apply IH.
Qed.

(** X21. The list that [get_item_names] hands to [write_items] is the saved
    list followed by one new element for each name it looked up, each for
    an item of the request and with the name the lookup gave: nothing saved
    is dropped or changed. *)
Theorem get_item_names_keeps_saved (saved_items : list saved_item)
    (get_item_name : item_key -> string -> string -> string -> pyresult string)
    (items : list item_key) (region api_key locale : string)
    (written : list saved_item) (item_names : names_t) :
  get_item_names saved_items get_item_name items region api_key locale
    = Ok (written, item_names) ->
  exists new,
    written = saved_items ++ new /\
    Forall (fun e => exists item name,
              e = {| si_item := Some item; si_name := Some name |} /\
              item ∈ items /\
              get_item_name item region api_key locale = Ok name) new.
Proof.
  unfold get_item_names.
  destruct (load_names ∅ saved_items) as [d0|]; [|done]. psimpl.
  destruct (names_loop _ _ _ _ _ _ _) as [[d lst]|] eqn:Hloop; [|done]. psimpl.
  intros [= <- <-]. by apply (names_loop_grows _ _ _ _ _ _ _ _ _ Hloop).
Qed.

Lemma get_item_names_keeps_saved_witness :
  exists new,
    [ {| si_item := Some (KInt 7); si_name := Some "Linen Cloth" |};
      {| si_item := Some (KInt 7); si_name := Some "item 7" |} ]
    = saved_ints ++ new /\
    Forall (fun e => exists item name,
              e = {| si_item := Some item; si_name := Some name |} /\
              item ∈ [KInt 7] /\
              name_server item "eu" "key" "en_GB" = Ok name) new.
Proof.
  apply (get_item_names_keeps_saved saved_ints name_server [KInt 7] "eu" "key" "en_GB"
           _ {[ KInt 7 := "item 7" ]}).
  reflexivity.
Defined.

Lemma int_items_looked_up_aux (saved_items : list saved_item)
    (get_item_name : item_key -> string -> string -> string -> pyresult string)
    (items : list item_key) (region api_key locale : string)
    (written : list saved_item) (item_names : names_t) :
  (forall e s, e ∈ saved_items -> si_item e <> Some (KStr s)) ->
  (forall item, item ∈ items -> exists n, item = KInt n) ->
  get_item_names saved_items get_item_name items region api_key locale
    = Ok (written, item_names) ->
  length written = (length saved_items + length items)%nat /\
  no_str_keys item_names.
Proof.
  intros Hsaved Hints. unfold get_item_names.
  destruct (load_names ∅ saved_items) as [d0|] eqn:Hload; [|done]. psimpl.
  destruct (names_loop _ _ _ _ _ _ _) as [[d lst]|] eqn:Hloop; [|done]. psimpl.
  intros [= <- <-].
  assert (no_str_keys d0) as Hd0.
  { apply (load_names_no_str saved_items ∅ d0); [|done..].
    intros s. apply lookup_empty. }
  destruct (names_loop_ints _ _ _ _ _ _ _ _ _ Hd0 Hints Hloop) as [Hd Hlen].
  done.
Qed.

(** X22. Names saved under int ids are never found again: when the saved
    list holds no string id and the items asked for are ints,
    [get_item_names] looks up every item, so the list it writes is longer
    than the saved one by the number of items. *)
Theorem int_items_always_looked_up (saved_items : list saved_item)
    (get_item_name : item_key -> string -> string -> string -> pyresult string)
    (items : list item_key) (region api_key locale : string)
    (written : list saved_item) (item_names : names_t) :
  (forall e s, e ∈ saved_items -> si_item e <> Some (KStr s)) ->
  (forall item, item ∈ items -> exists n, item = KInt n) ->
  get_item_names saved_items get_item_name items region api_key locale
    = Ok (written, item_names) ->
  length written = (length saved_items + length items)%nat /\
  no_str_keys item_names.
Proof.
  apply int_items_looked_up_aux.
Qed.

Lemma int_items_always_looked_up_witness :
  length [ {| si_item := Some (KInt 7); si_name := Some "Linen Cloth" |};
           {| si_item := Some (KInt 7); si_name := Some "item 7" |} ]
  = (length saved_ints + length [KInt 7])%nat /\
  no_str_keys {[ KInt 7 := "item 7" ]}.
Proof.
  apply (int_items_always_looked_up saved_ints name_server [KInt 7] "eu" "key" "en_GB").
  - intros e s Hin. unfold saved_ints in Hin.
    apply list_elem_of_singleton in Hin. subst e. discriminate.
  - intros item Hin. apply list_elem_of_singleton in Hin. by exists 7.
  - reflexivity.
Defined.

(** X23. [marketvalue_all] cannot finish on int items: it asks the dict of
    names for [str(item)], while [get_item_names] stores a looked-up name
    under the item itself.  When the keys of [auctions_dict] are ints and
    the saved list holds no string id, the call raises for every non-empty
    [auctions_dict]. *)
Theorem marketvalue_all_int_items_raises {MV : Type} (saved_items : list saved_item)
    (get_item_name : item_key -> string -> string -> string -> pyresult string)
    (marketvalue : item_key -> list float -> string -> pyresult MV)
    (auctions_dict : pydict item_key (list float)) (region api_key locale : string) :
  (forall e s, e ∈ saved_items -> si_item e <> Some (KStr s)) ->
  (forall item, item ∈ pd_keys auctions_dict -> exists n, item = KInt n) ->
  pd_keys auctions_dict <> [] ->
  raises (marketvalue_all saved_items get_item_name marketvalue
            auctions_dict region api_key locale).2.
Proof.
  intros Hsaved Hitems Hne. unfold marketvalue_all.
  set (items := pd_keys auctions_dict) in *.
  destruct (get_item_names _ _ items _ _ _) as [[written names]|] eqn:Hnames; [|done].
  simpl.
  destruct (int_items_looked_up_aux saved_items get_item_name items region api_key
              locale written names Hsaved Hitems Hnames) as [_ Hnostr].
  destruct items as [|item rest] eqn:Hl; [done|].
  apply (marketvalue_loop_raises marketvalue (item :: rest) (pd_map auctions_dict)
           names [] item).
  - apply elem_of_cons. by left.
  - apply Hnostr.
Qed.

Lemma marketvalue_all_int_items_raises_witness :
  raises (marketvalue_all saved_ints name_server
            (fun (_ : item_key) (_ : list float) (_ : string) => Ok tt)
            {| pd_keys := [KInt 7]; pd_map := {[ KInt 7 := [f10_0] ]} |}
            "eu" "key" "en_GB").2.
Proof.
  apply (marketvalue_all_int_items_raises saved_ints name_server
           (fun (_ : item_key) (_ : list float) (_ : string) => Ok tt)
           {| pd_keys := [KInt 7]; pd_map := {[ KInt 7 := [f10_0] ]} |}
           "eu" "key" "en_GB").
  - intros e s Hin. unfold saved_ints in Hin.
    apply list_elem_of_singleton in Hin. subst e. discriminate.
  - intros item Hin. apply list_elem_of_singleton in Hin. by exists 7.
  - discriminate.
Defined.
